(** * Earned-value engine of [src/App.tsx]

    The two memoised computations of the [App] component, [results]
    (the spec's [evaluate]) and [chartData] (the spec's
    [interpolateSeries]), embedded over binary64 numbers: a JavaScript
    [number] is a primitive [float], and [+ - * /], [===], [<=] and [>]
    are the IEEE 754 operations of [PrimFloat]. [Math.round] is defined
    on the binary expansion of its argument, and the [for] loop runs on a
    number as its counter.

    The properties are proved for every number where they hold for every
    number, and under [real_metrics] (no field is NaN or an infinity)
    where an infinity breaks them. *)

From Stdlib Require Import ZArith List Lia Bool.
From Stdlib Require Import Floats.
Import ListNotations.

Set Warnings "-inexact-float".
Local Open Scope float_scope.

(** ** JavaScript numbers *)

Module JS.

(** [x === y] on numbers: false on NaN, true on [+0] against [-0]. *)
Definition strict_eq (x y : float) : bool := (x =? y).

(** [x <= y], [x > y], [x < y] and [x >= y]: all false on NaN. *)
Definition le (x y : float) : bool := (x <=? y).
Definition gt (x y : float) : bool := (y <? x).
Definition lt (x y : float) : bool := (x <? y).
Definition ge (x y : float) : bool := (y <=? x).

(** The integer [floor (x + 1/2)] of the finite number [(-1)^s * m * 2^e]
    with [e < 0], computed exactly. *)
Definition round_half_up (s : bool) (m : positive) (e : Z) : Z :=
  ((2 * cond_Zopp s (Zpos m) + 2 ^ (- e)) / 2 ^ (1 - e))%Z.

(** [Math.round]: NaN, the infinities, the zeros and the integral
    numbers are returned as they are; any other number goes to the
    nearest integer, a tie to the one closer to [+infinity], and a result
    that is zero keeps the sign of the argument. *)
Definition Math_round (x : float) : float :=
  match Prim2SF x with
  | S754_finite s m e =>
      if (0 <=? e)%Z then x
      else
        let n := round_half_up s m e in
        if (n =? 0)%Z then (if s then neg_zero else zero)
        else SF2Prim (binary_normalize prec emax n 0 false)
  | _ => x
  end.

End JS.

(** ** The records of [src/types.ts] *)

Record EVMMetrics := {
  pv : float;
  ev : float;
  ac : float;
  bac : float;
  totalDurationDays : float;
  elapsedDays : float
}.

Record EVMResults := {
  sv : float;
  spi : float;
  cv : float;
  cpi : float;
  eac : float;
  etc : float;
  vac : float;
  tcpi : float;
  estimatedCompletionDays : float;
  scheduleVarianceDays : float
}.

Module Chart.
Record ChartDataPoint := {
  day : float;
  pv : float;
  ev : float;
  ac : float
}.
End Chart.
Abbreviation ChartDataPoint := Chart.ChartDataPoint.

(** The spec's data model: every field of an [EVMMetrics] is a real number,
    neither NaN nor an infinity. *)
Definition real_metrics (m : EVMMetrics) : bool :=
  is_finite m.(pv) && is_finite m.(ev) && is_finite m.(ac) && is_finite m.(bac) &&
  is_finite m.(totalDurationDays) && is_finite m.(elapsedDays).

(** ** [results]: the metrics evaluator (App.tsx, lines 33-54) *)

Definition results (metrics : EVMMetrics) : EVMResults :=
  let sv := metrics.(ev) - metrics.(pv) in
  let spi := if JS.strict_eq metrics.(pv) 0 then 1 else metrics.(ev) / metrics.(pv) in
  let cv := metrics.(ev) - metrics.(ac) in
  let cpi := if JS.strict_eq metrics.(ac) 0 then 1 else metrics.(ev) / metrics.(ac) in
  let eac := if JS.strict_eq cpi 0 then metrics.(bac) else metrics.(bac) / cpi in
  let etc := eac - metrics.(ac) in
  let vac := metrics.(bac) - eac in
  let workRemaining := metrics.(bac) - metrics.(ev) in
  let fundsRemaining := metrics.(bac) - metrics.(ac) in
  let tcpi :=
    if JS.le fundsRemaining 0
    then (if JS.gt workRemaining 0 then 9.99 else 0)
    else workRemaining / fundsRemaining in
  let estimatedCompletionDays :=
    if JS.strict_eq spi 0 then metrics.(totalDurationDays)
    else metrics.(totalDurationDays) / spi in
  let scheduleVarianceDays := estimatedCompletionDays - metrics.(totalDurationDays) in
  {| sv := sv; spi := spi; cv := cv; cpi := cpi; eac := eac; etc := etc;
     vac := vac; tcpi := tcpi;
     estimatedCompletionDays := estimatedCompletionDays;
     scheduleVarianceDays := scheduleVarianceDays |}.

(** ** [chartData]: the series interpolator (App.tsx, lines 56-72) *)

Definition steps : float := 10.

(** The object pushed by one iteration of the loop, at counter [i]. *)
Definition chartPoint (metrics : EVMMetrics) (stepDays i : float) : ChartDataPoint :=
  let currentDay := JS.Math_round (i * stepDays) in
  let ratio := i / steps in
  {| Chart.day := currentDay;
     Chart.pv := JS.Math_round (metrics.(pv) * ratio);
     Chart.ev := JS.Math_round (metrics.(ev) * ratio);
     Chart.ac := JS.Math_round (metrics.(ac) * ratio) |}.

(** [for (let i = ...; i <= steps; i++) points.push(...)]: the counter is a
    number, and [fuel] bounds the iterations still allowed. *)
Fixpoint chartLoop (metrics : EVMMetrics) (stepDays : float) (fuel : nat) (i : float)
    (points : list ChartDataPoint) : option (list ChartDataPoint) :=
  match fuel with
  | O => None
  | S fuel' =>
      if JS.le i steps
      then chartLoop metrics stepDays fuel' (i + 1)
             (points ++ [chartPoint metrics stepDays i])
      else Some points
  end.

Definition chartData (fuel : nat) (metrics : EVMMetrics) : option (list ChartDataPoint) :=
  let stepDays := metrics.(elapsedDays) / steps in
  chartLoop metrics stepDays fuel 0 [].

(** The counter values of the loop, [0] to [steps]. *)
Definition stepIndex : list float := [0; 1; 2; 3; 4; 5; 6; 7; 8; 9; 10].

(** ** The same computations with a division that can fail

    [x / y] never throws in JavaScript. To state that every division of
    the two computations is guarded, they are run again with a division
    that fails on a zero divisor. *)

Definition bind {A B : Type} (c : option A) (k : A -> option B) : option B :=
  match c with
  | Some a => k a
  | None => None
  end.

Notation "x <- c ;; k" := (bind c (fun x => k))
  (at level 61, c at next level, right associativity).

Definition checked_div (x y : float) : option float :=
  if JS.strict_eq y 0 then None else Some (x / y).

Definition results_checked (metrics : EVMMetrics) : option EVMResults :=
  let sv := metrics.(ev) - metrics.(pv) in
  spi <- (if JS.strict_eq metrics.(pv) 0 then Some 1
          else checked_div metrics.(ev) metrics.(pv)) ;;
  let cv := metrics.(ev) - metrics.(ac) in
  cpi <- (if JS.strict_eq metrics.(ac) 0 then Some 1
          else checked_div metrics.(ev) metrics.(ac)) ;;
  eac <- (if JS.strict_eq cpi 0 then Some metrics.(bac)
          else checked_div metrics.(bac) cpi) ;;
  let etc := eac - metrics.(ac) in
  let vac := metrics.(bac) - eac in
  let workRemaining := metrics.(bac) - metrics.(ev) in
  let fundsRemaining := metrics.(bac) - metrics.(ac) in
  tcpi <- (if JS.le fundsRemaining 0
           then Some (if JS.gt workRemaining 0 then 9.99 else 0)
           else checked_div workRemaining fundsRemaining) ;;
  estimatedCompletionDays <-
    (if JS.strict_eq spi 0 then Some metrics.(totalDurationDays)
     else checked_div metrics.(totalDurationDays) spi) ;;
  let scheduleVarianceDays := estimatedCompletionDays - metrics.(totalDurationDays) in
  Some {| sv := sv; spi := spi; cv := cv; cpi := cpi; eac := eac; etc := etc;
          vac := vac; tcpi := tcpi;
          estimatedCompletionDays := estimatedCompletionDays;
          scheduleVarianceDays := scheduleVarianceDays |}.

Definition chartPoint_checked (metrics : EVMMetrics) (stepDays i : float)
    : option ChartDataPoint :=
  let currentDay := JS.Math_round (i * stepDays) in
  ratio <- checked_div i steps ;;
  Some {| Chart.day := currentDay;
          Chart.pv := JS.Math_round (metrics.(pv) * ratio);
          Chart.ev := JS.Math_round (metrics.(ev) * ratio);
          Chart.ac := JS.Math_round (metrics.(ac) * ratio) |}.

Fixpoint chartLoop_checked (metrics : EVMMetrics) (stepDays : float) (fuel : nat)
    (i : float) (points : list ChartDataPoint) : option (list ChartDataPoint) :=
  match fuel with
  | O => None
  | S fuel' =>
      if JS.le i steps
      then
        point <- chartPoint_checked metrics stepDays i ;;
        chartLoop_checked metrics stepDays fuel' (i + 1) (points ++ [point])
      else Some points
  end.

Definition chartData_checked (fuel : nat) (metrics : EVMMetrics)
    : option (list ChartDataPoint) :=
  stepDays <- checked_div metrics.(elapsedDays) steps ;;
  chartLoop_checked metrics stepDays fuel 0 [].

(** ** Reading the spec's approximate figures *)

(** [x] is within [tol] of [c]. *)
Definition approx (x c tol : float) : bool := (abs (x - c) <? tol).

(** The decimal expansion of [x] starts with the digits of [lo]: [x] lies in
    [[lo, hi)], [hi] being [lo] plus one unit of its last digit. *)
Definition starts_with (x lo hi : float) : bool := (lo <=? x) && (x <? hi).

(** ** The inputs and readings the claims use *)

(** The spec's scenario, the initial state of the form. *)
Definition scenario : EVMMetrics :=
  {| pv := 100000; ev := 85000; ac := 95000; bac := 250000;
     totalDurationDays := 180; elapsedDays := 60 |}.

(** C5, as claimed: the computed [cpi] is zero exactly when [ev = 0] and
    [ac <> 0]. *)
Definition cpi_zero_exactly (m : EVMMetrics) : Prop :=
  JS.strict_eq (results m).(cpi) 0 = true <->
  JS.strict_eq m.(ev) 0 = true /\ JS.strict_eq m.(ac) 0 = false.

(** An earned value so small against the actual cost that their quotient
    underflows. *)
Definition underflow : EVMMetrics :=
  {| pv := 100000; ev := 1e-200; ac := 1e200; bac := 250000;
     totalDurationDays := 180; elapsedDays := 60 |}.

(** C2, as claimed, on the spec's scenario: the figures of the spec, each
    read to the digits it gives. *)
Definition scenario_as_claimed (r : EVMResults) : Prop :=
  r.(sv) = -15000 /\
  approx r.(spi) 0.85 0.005 = true /\
  r.(cv) = -10000 /\
  starts_with r.(cpi) 0.894 0.895 = true /\
  approx r.(eac) 279069.77 0.005 = true /\
  approx r.(vac) (-29069.77) 0.005 = true /\
  starts_with r.(tcpi) 1.25 1.26 = true /\
  approx r.(estimatedCompletionDays) 211.76 0.005 = true /\
  approx r.(scheduleVarianceDays) 31.76 0.005 = true.

(** Inconsistent, negative and zero values. *)
Definition inconsistent : EVMMetrics :=
  {| pv := 0; ev := -5; ac := 0; bac := -250000;
     totalDurationDays := 0; elapsedDays := -60 |}.

(** Two counter values in loop order, and their ratios: finite, not
    negative, and in order. *)
Definition ordered_steps (a b : float) : bool :=
  is_finite a && (0 <=? a) && is_finite b && (a <=? b) &&
  is_finite (a / steps) && (0 <=? a / steps) &&
  is_finite (b / steps) && (a / steps <=? b / steps).

(** * Binary64 arithmetic

    What the proofs below need of IEEE 754 rounding, derived from the
    executable specification [SpecFloat] that the primitive operations
    satisfy: the shape of a rounded result, the monotonicity of rounding
    to nearest, the exactness of a multiplication or division by one and
    the sign of a difference. *)

Module B64.
Local Open Scope Z_scope.

(** ** Definitions *)

(** [x] is not zero. *)
Definition nz (x : Z) : bool := negb (x =? 0).

(** Round to nearest, ties to even, of [m / 2^n]. *)
Definition rne (m n : Z) : Z :=
  let q := m / 2 ^ n in
  match 2 * (m mod 2 ^ n) ?= 2 ^ n with
  | Lt => q
  | Eq => if Z.even q then q else q + 1
  | Gt => q + 1
  end.

(** The float of sign [s], mantissa [q] and exponent [E], with overflow to
    infinity. *)
Definition pack (s : bool) (q E : Z) : spec_float :=
  match q with
  | Z0 => S754_zero s
  | Zpos p => if E <=? 971 then S754_finite s p E else S754_infinity s
  | Zneg _ => S754_nan
  end.

(** The same after the carry of a rounding up to [2^53]. *)
Definition build (s : bool) (q E : Z) : spec_float :=
  if q =? 2 ^ 53 then pack s (2 ^ 52) (E + 1) else pack s q E.

(** The magnitude of [m * 2^e], [m > 0]: [2^(mag - 1) <= m * 2^e < 2^mag]. *)
Definition mag (m e : Z) : Z := Z.log2 m + 1 + e.

(** The exponent of the binary64 number [m * 2^e] rounds to. *)
Definition rexp (m e : Z) : Z := Z.max (mag m e - 53) (-1074).

(** Value order of [m1 * 2^e1] and [m2 * 2^e2], on integers. *)
Definition vle (m1 e1 m2 e2 : Z) : Prop :=
  m1 * 2 ^ (e1 - Z.min e1 e2) <= m2 * 2 ^ (e2 - Z.min e1 e2).

(** The rounded mantissa of [m * 2^e] at the exponent [rexp m e]. *)
Definition rnd (m e : Z) : Z :=
  if rexp m e <? e then m * 2 ^ (e - rexp m e) else rne m (rexp m e - e).

(** Zero or a positive finite number. *)
Definition fin_nonneg (x : spec_float) : bool :=
  match x with
  | S754_zero _ | S754_finite false _ _ => true
  | _ => false
  end.

(** The same, or plus infinity. *)
Definition nonneg (x : spec_float) : bool :=
  match x with
  | S754_zero _ | S754_finite false _ _ | S754_infinity false => true
  | _ => false
  end.

(** The numbers [1] and [10]. *)
Definition SF64one : spec_float := S754_finite false 4503599627370496 (-52).
Definition SF64ten : spec_float := S754_finite false 5629499534213120 (-49).

(** Zero or finite, of either sign. *)
Definition finite_sf (x : spec_float) : bool :=
  match x with
  | S754_zero _ | S754_finite _ _ _ => true
  | _ => false
  end.

(** NaN. *)
Definition is_nan_sf (x : spec_float) : bool :=
  match x with S754_nan => true | _ => false end.

(** [JS.Math_round] on [spec_float]. *)
Definition SFround (x : spec_float) : spec_float :=
  match x with
  | S754_finite s m e =>
      if 0 <=? e then x
      else
        let n := JS.round_half_up s m e in
        if n =? 0 then S754_zero s else binary_normalize prec emax n 0 false
  | _ => x
  end.

(** ** Integers, shifts and rounding to nearest even *)

(** The exponent function of binary64: 53 bits of precision, the least
    exponent [-1074]. *)
Lemma fexp_eq e : fexp prec emax e = Z.max (e - 53) (-1074).
Proof. reflexivity. Qed.

(** The number of bits of a mantissa, through [Z.log2]. *)
Lemma digits2_log2 p : Zpos (digits2_pos p) = Z.log2 (Zpos p) + 1.
Proof.
  assert (H : forall q, digits2_pos q = Pos.size q)
    by (induction q; simpl; congruence).
  destruct p; simpl; rewrite ?H; lia.
Qed.

Lemma Zdigits2_log2 m : 0 < m -> Zdigits2 m = Z.log2 m + 1.
Proof. destruct m; try lia. intros _. apply digits2_log2. Qed.

Lemma iter_pos_iter {A} (f : A -> A) p : forall x, iter_pos f p x = Pos.iter f x p.
Proof.
  induction p; intros x; simpl.
  - rewrite !IHp. rewrite <- Pos.iter_swap. rewrite <- Pos.iter_swap. reflexivity.
  - rewrite !IHp. reflexivity.
  - reflexivity.
Qed.

(** One shift to the right halves the mantissa, and keeps the bit lost and
    whether a bit was lost before. *)
Lemma shr_1_nonneg m r s : 0 <= m ->
  shr_1 (Build_shr_record m r s) = Build_shr_record (m / 2) (Z.odd m) (r || s).
Proof.
  intros Hm. destruct m as [|p|p]; try lia.
  - reflexivity.
  - assert (E1 : forall q, Z.pos q~1 / 2 = Z.pos q)
      by (intro q; symmetry; apply (Z.div_unique_pos _ _ _ 1); lia).
    assert (E0 : forall q, Z.pos q~0 / 2 = Z.pos q)
      by (intro q; symmetry; apply (Z.div_unique_pos _ _ _ 0); lia).
    destruct p; simpl shr_1; rewrite ?E1, ?E0; reflexivity.
Qed.

Lemma mod_pow2_succ m k : 0 <= k ->
  m mod 2 ^ (k + 1) = m mod 2 ^ k + 2 ^ k * (if Z.odd (m / 2 ^ k) then 1 else 0).
Proof.
  intros Hk. rewrite Z.pow_add_r, Z.pow_1_r by lia.
  rewrite Z.rem_mul_r by lia. rewrite Zmod_odd. reflexivity.
Qed.

Lemma mod_pow2_pred m k : 1 <= k ->
  m mod 2 ^ k = m mod 2 ^ (k - 1) + 2 ^ (k - 1) * (if Z.odd (m / 2 ^ (k - 1)) then 1 else 0).
Proof.
  intros Hk. rewrite <- mod_pow2_succ by lia. f_equal. f_equal. lia.
Qed.

Lemma nz_mod_pow2 m k : 1 <= k ->
  nz (m mod 2 ^ k) = Z.odd (m / 2 ^ (k - 1)) || nz (m mod 2 ^ (k - 1)).
Proof.
  intros Hk. rewrite (mod_pow2_pred m k Hk). unfold nz.
  assert (Ht := Z.mod_pos_bound m (2 ^ (k - 1)) ltac:(lia)).
  assert (Hh : 0 < 2 ^ (k - 1)) by lia.
  destruct (Z.odd (m / 2 ^ (k - 1))); simpl;
    repeat match goal with |- context [?a =? 0] => destruct (Z.eqb_spec a 0) end;
    simpl; try reflexivity; lia.
Qed.

(** [p] shifts to the right. *)
Lemma iter_shr_1 m r s p : 0 <= m ->
  Pos.iter shr_1 (Build_shr_record m r s) p =
  Build_shr_record (m / 2 ^ Zpos p) (Z.odd (m / 2 ^ (Zpos p - 1)))
    (r || s || nz (m mod 2 ^ (Zpos p - 1))).
Proof.
  intros Hm. induction p using Pos.peano_ind.
  - cbn [Pos.iter]. rewrite shr_1_nonneg by assumption.
    change (2 ^ (1 - 1)) with 1. rewrite Z.div_1_r, Z.mod_1_r.
    change (2 ^ 1) with 2. unfold nz. simpl. rewrite orb_false_r. reflexivity.
  - rewrite Pos.iter_succ, IHp.
    assert (H0 : 0 <= m / 2 ^ Z.pos p) by (apply Z.div_pos; lia).
    rewrite shr_1_nonneg by assumption.
    rewrite Pos2Z.inj_succ.
    replace (Z.succ (Z.pos p) - 1) with (Z.pos p) by lia.
    f_equal.
    + rewrite Z.div_div by lia. f_equal.
      rewrite Z.pow_succ_r by lia. lia.
    + rewrite (nz_mod_pow2 m (Z.pos p)) by lia.
      destruct (Z.odd (m / 2 ^ (Z.pos p - 1))), r, s; reflexivity.
Qed.

Lemma rne_0 m : rne m 0 = m.
Proof. unfold rne. change (2 ^ 0) with 1. rewrite Z.mod_1_r, Z.div_1_r. reflexivity. Qed.

(** Rounding after [p] shifts is rounding [m / 2^p] to nearest even. *)
Lemma round_iter_shr m p : 0 <= m ->
  let mrs := Pos.iter shr_1 (Build_shr_record m false false) p in
  round_nearest_even (shr_m mrs) (loc_of_shr_record mrs) = rne m (Zpos p).
Proof.
  intros Hm mrs. subst mrs. rewrite iter_shr_1 by assumption.
  unfold rne. cbn [shr_m loc_of_shr_record orb].
  set (q := m / 2 ^ Z.pos p).
  rewrite (mod_pow2_pred m (Z.pos p)) by lia.
  assert (Ht := Z.mod_pos_bound m (2 ^ (Z.pos p - 1)) ltac:(lia)).
  assert (Hh : 0 < 2 ^ (Z.pos p - 1)) by lia.
  assert (Hp : 2 ^ Z.pos p = 2 * 2 ^ (Z.pos p - 1)).
  { rewrite <- Z.pow_succ_r by lia. f_equal. lia. }
  rewrite Hp. unfold nz.
  set (t := m mod 2 ^ (Z.pos p - 1)) in *.
  set (h := 2 ^ (Z.pos p - 1)) in *.
  destruct (Z.odd (m / h)); destruct (Z.eqb_spec t 0) as [E|E];
    cbn [negb round_nearest_even].
  - replace (2 * (t + h * 1) ?= 2 * h) with Eq; [reflexivity|].
    symmetry; apply Z.compare_eq_iff; lia.
  - replace (2 * (t + h * 1) ?= 2 * h) with Gt; [reflexivity|].
    symmetry; apply Z.compare_gt_iff; lia.
  - replace (2 * (t + h * 0) ?= 2 * h) with Lt; [reflexivity|].
    symmetry; apply Z.compare_lt_iff; lia.
  - replace (2 * (t + h * 0) ?= 2 * h) with Lt; [reflexivity|].
    symmetry; apply Z.compare_lt_iff; lia.
Qed.

Lemma rne_bounds m n : m / 2 ^ n <= rne m n <= m / 2 ^ n + 1.
Proof.
  unfold rne. destruct (2 * (m mod 2 ^ n) ?= 2 ^ n); [destruct (Z.even _)| |]; lia.
Qed.

Lemma rne_le_pow2 m n k : 0 <= n -> 0 <= k -> m < 2 ^ (n + k) -> rne m n <= 2 ^ k.
Proof.
  intros Hn Hk Hm. pose proof (rne_bounds m n) as [_ H].
  assert (m / 2 ^ n < 2 ^ k); [|lia].
  apply Z.div_lt_upper_bound; [lia|]. rewrite <- Z.pow_add_r by lia. exact Hm.
Qed.

Lemma rne_nonneg m n : 0 <= m -> 0 <= rne m n.
Proof.
  intros Hm. pose proof (rne_bounds m n) as [H _].
  assert (0 <= m / 2 ^ n); [|lia].
  destruct (Z.le_gt_cases 0 n).
  - apply Z.div_pos; lia.
  - rewrite Z.pow_neg_r by lia. rewrite Z.div_0_r. lia.
Qed.

Lemma log2_lt_pow2' m k : 0 < m -> m < 2 ^ k -> Z.log2 m + 1 <= k.
Proof.
  intros Hm H. destruct (Z.le_gt_cases 0 k) as [Hk|Hk].
  - apply Z.log2_lt_pow2 in H; lia.
  - rewrite Z.pow_neg_r in H; lia.
Qed.

(** The result of rounding [m * 2^e], when [e] is at most the exponent
    [rexp m e] the result has. *)
Lemma binary_round_aux_exact s m e :
  0 < m -> e <= rexp m e ->
  binary_round_aux prec emax s m e loc_Exact = build s (rne m (rexp m e - e)) (rexp m e).
Proof.
  intros Hm Hn. unfold binary_round_aux, shr_fexp.
  rewrite fexp_eq, Zdigits2_log2 by assumption.
  fold (mag m e). fold (rexp m e).
  set (E := rexp m e) in *. set (n := E - e).
  assert (HE : -1074 <= E) by (unfold E, rexp; lia).
  assert (Hq : shr (shr_record_of_loc m loc_Exact) e n =
               (let mrs := match n with Zpos p => Pos.iter shr_1 (Build_shr_record m false false) p
                           | _ => Build_shr_record m false false end in mrs, E)).
  { unfold shr. cbn [shr_record_of_loc]. destruct n eqn:En; try (f_equal; lia).
    rewrite iter_pos_iter. f_equal. lia. }
  rewrite Hq. cbv zeta.
  assert (Hr : round_nearest_even
          (shr_m match n with Zpos p => Pos.iter shr_1 (Build_shr_record m false false) p
                 | _ => Build_shr_record m false false end)
          (loc_of_shr_record match n with Zpos p => Pos.iter shr_1 (Build_shr_record m false false) p
                 | _ => Build_shr_record m false false end) = rne m n).
  { destruct n eqn:En; try lia.
    - rewrite rne_0. reflexivity.
    - apply round_iter_shr. lia. }
  rewrite Hr. clear Hq Hr.
  set (q := rne m n).
  assert (Hq0 : 0 <= q) by (apply rne_nonneg; lia).
  assert (Hq1 : q <= 2 ^ 53).
  { apply rne_le_pow2; try lia.
    pose proof (Z.log2_spec m Hm) as [_ Hlt].
    eapply Z.lt_le_trans; [exact Hlt|].
    apply Z.pow_le_mono_r; [lia|]. unfold n, E, rexp, mag in *. lia. }
  unfold build. destruct (Z.eqb_spec q (2 ^ 53)) as [Eq|Nq].
  - rewrite Eq. rewrite fexp_eq.
    change (Zdigits2 (2 ^ 53)) with 54.
    replace (Z.max (54 + E - 53) (-1074) - E) with 1 by lia.
    reflexivity.
  - rewrite fexp_eq.
    assert (Hs : Z.max (Zdigits2 q + E - 53) (-1074) - E <= 0).
    { destruct (Z.eq_dec q 0) as [->|Hnz]; [simpl; lia|].
      rewrite Zdigits2_log2 by lia.
      assert (Z.log2 q + 1 <= 53) by (apply log2_lt_pow2'; lia). lia. }
    unfold shr. cbn [shr_record_of_loc].
    destruct (Z.max (Zdigits2 q + E - 53) (-1074) - E) eqn:Es; try lia;
      cbn [shr_m]; unfold pack; destruct q; try lia; reflexivity.
Qed.

Lemma rne_exact m k : 0 <= k -> rne (m * 2 ^ k) k = m.
Proof.
  intros Hk. unfold rne. rewrite Z.mod_mul, Z.div_mul by lia.
  replace (2 * 0 ?= 2 ^ k) with Lt; [reflexivity|].
  symmetry. apply Z.compare_lt_iff. lia.
Qed.

Lemma compare_mul_r a b c : 0 < c -> (a * c ?= b * c) = (a ?= b).
Proof.
  intros Hc. destruct (Z.compare_spec a b);
    [apply Z.compare_eq_iff|apply Z.compare_lt_iff|apply Z.compare_gt_iff]; nia.
Qed.

Lemma rne_scale m n k : 0 <= n -> 0 <= k -> rne (m * 2 ^ k) (n + k) = rne m n.
Proof.
  intros Hn Hk. unfold rne. rewrite Z.pow_add_r by lia.
  rewrite Z.div_mul_cancel_r by lia.
  rewrite Z.mul_mod_distr_r by lia.
  replace (2 * (m mod 2 ^ n * 2 ^ k)) with (2 * (m mod 2 ^ n) * 2 ^ k) by lia.
  rewrite compare_mul_r by lia. reflexivity.
Qed.

Lemma rne_mono m m' n : 0 <= n -> m <= m' -> rne m n <= rne m' n.
Proof.
  intros Hn Hm.
  assert (Hp : 0 < 2 ^ n) by lia.
  assert (Hq : m / 2 ^ n <= m' / 2 ^ n) by (apply Z.div_le_mono; lia).
  destruct (Z.eq_dec (m / 2 ^ n) (m' / 2 ^ n)) as [Heq|Hne].
  - pose proof (Z.div_mod m (2 ^ n) ltac:(lia)) as D1.
    pose proof (Z.div_mod m' (2 ^ n) ltac:(lia)) as D2.
    unfold rne. rewrite <- Heq.
    assert (Hr : m mod 2 ^ n <= m' mod 2 ^ n) by nia.
    destruct (Z.compare_spec (2 * (m mod 2 ^ n)) (2 ^ n));
      destruct (Z.compare_spec (2 * (m' mod 2 ^ n)) (2 ^ n));
      try destruct (Z.even (m / 2 ^ n)); lia.
  - pose proof (rne_bounds m n). pose proof (rne_bounds m' n). lia.
Qed.

Lemma vle_mag m1 e1 m2 e2 : 0 < m1 -> 0 < m2 -> vle m1 e1 m2 e2 -> mag m1 e1 <= mag m2 e2.
Proof.
  unfold vle, mag. intros H1 H2 H.
  set (e0 := Z.min e1 e2) in *.
  assert (L : Z.log2 (m1 * 2 ^ (e1 - e0)) <= Z.log2 (m2 * 2 ^ (e2 - e0)))
    by (apply Z.log2_le_mono; exact H).
  rewrite !Z.log2_mul_pow2 in L by lia. lia.
Qed.

Lemma rne_rexp_bounds m e : 0 < m -> e <= rexp m e -> 0 <= rne m (rexp m e - e) <= 2 ^ 53.
Proof.
  intros Hm Hn. split; [apply rne_nonneg; lia|].
  apply rne_le_pow2; try lia.
  pose proof (Z.log2_spec m Hm) as [_ Hlt].
  eapply Z.lt_le_trans; [exact Hlt|].
  apply Z.pow_le_mono_r; [lia|]. unfold rexp, mag in *. lia.
Qed.

Lemma rne_normal m e : 0 < m -> e <= rexp m e -> -1074 < rexp m e ->
  2 ^ 52 <= rne m (rexp m e - e).
Proof.
  intros Hm Hn Hnorm.
  pose proof (rne_bounds m (rexp m e - e)) as [H _].
  eapply Z.le_trans; [|exact H].
  assert (Hr : rexp m e - e = Z.log2 m - 52) by (unfold rexp, mag in *; lia).
  rewrite Hr in *.
  apply Z.div_le_lower_bound; [lia|].
  rewrite <- Z.pow_add_r by lia.
  replace (Z.log2 m - 52 + 52) with (Z.log2 m) by lia.
  apply Z.log2_spec; assumption.
Qed.

Lemma SFleb_zero_pack s q E : 0 <= q -> SFleb (S754_zero s) (pack false q E) = true.
Proof.
  intros Hq. unfold pack. destruct q; try lia; [reflexivity|].
  destruct (E <=? 971); reflexivity.
Qed.

Lemma SFleb_pack q1 E1 q2 E2 :
  0 <= q1 -> 0 < q2 ->
  E1 < E2 \/ (E1 = E2 /\ q1 <= q2) ->
  SFleb (pack false q1 E1) (pack false q2 E2) = true.
Proof.
  intros H1 H2 H. unfold pack.
  destruct q1 as [|p1|p1]; try lia; destruct q2 as [|p2|p2]; try lia.
  - destruct (E2 <=? 971); reflexivity.
  - destruct (Z.leb_spec E1 971), (Z.leb_spec E2 971); try reflexivity; try lia.
    unfold SFleb, SFcompare.
    destruct (Z.compare_spec E1 E2); try lia; try reflexivity.
    change (Pos.compare_cont Eq p1 p2) with (Pos.compare p1 p2).
    destruct (Pos.compare_spec p1 p2); try reflexivity. lia.
Qed.

Lemma build_le q1 E1 q2 E2 :
  0 <= q1 <= 2 ^ 53 -> 0 <= q2 <= 2 ^ 53 -> E1 <= E2 ->
  (E1 = E2 -> q1 <= q2) -> (E1 < E2 -> 2 ^ 52 <= q2) ->
  SFleb (build false q1 E1) (build false q2 E2) = true.
Proof.
  intros H1 H2 HE Heq Hlt. unfold build.
  destruct (Z.eq_dec q1 0) as [->|N1].
  - change (0 =? 2 ^ 53) with false. cbv iota.
    destruct (q2 =? 2 ^ 53); apply (SFleb_zero_pack false); lia.
  - assert (0 < q2).
    { destruct (Z.eq_dec E1 E2); [specialize (Heq e)|specialize (Hlt ltac:(lia))]; lia. }
    destruct (Z.eqb_spec q1 (2 ^ 53)), (Z.eqb_spec q2 (2 ^ 53));
      apply SFleb_pack; try lia;
      (destruct (Z.eq_dec E1 E2) as [HE'|HE'];
       [specialize (Heq HE')|specialize (Hlt ltac:(lia))]; lia).
Qed.

(** Rounding to nearest is monotone. *)
Theorem binary_round_aux_mono m1 e1 m2 e2 :
  0 < m1 -> 0 < m2 -> e1 <= rexp m1 e1 -> e2 <= rexp m2 e2 ->
  vle m1 e1 m2 e2 ->
  SFleb (binary_round_aux prec emax false m1 e1 loc_Exact)
        (binary_round_aux prec emax false m2 e2 loc_Exact) = true.
Proof.
  intros H1 H2 N1 N2 V.
  rewrite !binary_round_aux_exact by assumption.
  pose proof (vle_mag _ _ _ _ H1 H2 V) as Hmag.
  apply build_le.
  - apply rne_rexp_bounds; assumption.
  - apply rne_rexp_bounds; assumption.
  - unfold rexp. lia.
  - intros HE. rewrite <- HE.
    set (E := rexp m1 e1) in *. set (e0 := Z.min e1 e2).
    unfold vle in V. fold e0 in V.
    rewrite <- (rne_scale m1 (E - e1) (e1 - e0)) by lia.
    rewrite <- (rne_scale m2 (E - e2) (e2 - e0)) by lia.
    replace (E - e1 + (e1 - e0)) with (E - e0) by lia.
    replace (E - e2 + (e2 - e0)) with (E - e0) by lia.
    apply rne_mono; [lia|exact V].
  - intros HE. apply rne_normal; try assumption. unfold rexp in *. lia.
Qed.

(** The value order can be read at any common exponent below both. *)
Lemma vle_base m1 e1 m2 e2 e0 : e0 <= e1 -> e0 <= e2 ->
  (vle m1 e1 m2 e2 <-> m1 * 2 ^ (e1 - e0) <= m2 * 2 ^ (e2 - e0)).
Proof.
  intros H1 H2. unfold vle. set (em := Z.min e1 e2).
  assert (Hk : 0 <= em - e0) by (unfold em; lia).
  replace (e1 - e0) with ((e1 - em) + (em - e0)) by lia.
  replace (e2 - e0) with ((e2 - em) + (em - e0)) by lia.
  rewrite !Z.pow_add_r by (unfold em; lia).
  rewrite !Z.mul_assoc.
  assert (0 < 2 ^ (em - e0)) by lia.
  split; intros H'; nia.
Qed.

Lemma iter_xO m d : Zpos (Pos.iter xO m d) = Zpos m * 2 ^ Zpos d.
Proof.
  induction d using Pos.peano_ind.
  - cbn [Pos.iter]. rewrite Pos2Z.inj_xO. change (2 ^ 1) with 2. lia.
  - rewrite Pos.iter_succ, Pos2Z.inj_xO, IHd, Pos2Z.inj_succ, Z.pow_succ_r by lia. lia.
Qed.

(** The mantissa and exponent [binary_round] hands to [binary_round_aux]. *)
Lemma shl_align_spec m e :
  let E := rexp (Zpos m) e in
  shl_align m e (fexp prec emax (Zpos (digits2_pos m) + e)) =
  if E <? e then (Z.to_pos (Zpos m * 2 ^ (e - E)), E) else (m, e).
Proof.
  intros E. rewrite fexp_eq, digits2_log2. fold (mag (Zpos m) e). fold (rexp (Zpos m) e).
  fold E. unfold shl_align.
  destruct (Z.ltb_spec E e) as [Hlt|Hge].
  - destruct (E - e) eqn:Hd; try lia.
    f_equal. apply Pos2Z.inj. rewrite iter_xO, Z2Pos.id by lia.
    f_equal. f_equal. lia.
  - destruct (E - e) eqn:Hd; try lia; reflexivity.
Qed.

Lemma mag_scale m e k : 0 < m -> 0 <= k -> mag (m * 2 ^ k) (e - k) = mag m e.
Proof. intros. unfold mag. rewrite Z.log2_mul_pow2 by lia. lia. Qed.

Lemma rexp_scale m e k : 0 < m -> 0 <= k -> rexp (m * 2 ^ k) (e - k) = rexp m e.
Proof. intros. unfold rexp. rewrite mag_scale by assumption. reflexivity. Qed.

Lemma rexp_shifted m e E : 0 < m -> E = rexp m e -> E < e ->
  rexp (m * 2 ^ (e - E)) E = E.
Proof.
  intros Hm HE Hlt. pose proof (rexp_scale m e (e - E) Hm ltac:(lia)) as H.
  replace (e - (e - E)) with E in H by lia. congruence.
Qed.

(** The result of [binary_round], for every mantissa and exponent. *)
Lemma binary_round_spec s m e :
  binary_round prec emax s m e = build s (rnd (Zpos m) e) (rexp (Zpos m) e).
Proof.
  unfold binary_round. rewrite shl_align_spec. unfold rnd.
  remember (rexp (Zpos m) e) as E eqn:HE.
  destruct (Z.ltb_spec E e) as [Hlt|Hge].
  - rewrite Z2Pos.id by lia.
    pose proof (rexp_shifted (Zpos m) e E ltac:(lia) HE Hlt) as HR.
    rewrite binary_round_aux_exact by lia.
    rewrite HR, Z.sub_diag, rne_0. reflexivity.
  - rewrite binary_round_aux_exact by lia. rewrite <- HE. reflexivity.
Qed.

Lemma rnd_bounds m e : 0 < m -> 0 <= rnd m e <= 2 ^ 53.
Proof.
  intros Hm. unfold rnd. destruct (Z.ltb_spec (rexp m e) e) as [Hlt|Hge].
  - split; [lia|].
    assert (Hr : mag m e - 53 <= rexp m e) by (unfold rexp; lia).
    pose proof (Z.log2_spec m Hm) as [_ Hu].
    pose proof (Z.log2_nonneg m) as Hl.
    assert (H : m * 2 ^ (e - rexp m e) < 2 ^ (Z.succ (Z.log2 m)) * 2 ^ (e - rexp m e)).
    { apply Z.mul_lt_mono_pos_r; lia. }
    rewrite <- Z.pow_add_r in H by lia.
    assert (2 ^ (Z.succ (Z.log2 m) + (e - rexp m e)) <= 2 ^ 53).
    { apply Z.pow_le_mono_r; unfold mag in Hr; lia. }
    lia.
  - apply rne_rexp_bounds; assumption.
Qed.

Lemma rnd_normal m e : 0 < m -> -1074 < rexp m e -> 2 ^ 52 <= rnd m e.
Proof.
  intros Hm Hn. unfold rnd. destruct (Z.ltb_spec (rexp m e) e) as [Hlt|Hge].
  - assert (Hr : e - rexp m e = 52 - Z.log2 m) by (unfold rexp, mag in *; lia).
    rewrite Hr.
    pose proof (Z.log2_spec m Hm) as [Hl _].
    assert (2 ^ Z.log2 m * 2 ^ (52 - Z.log2 m) <= m * 2 ^ (52 - Z.log2 m)).
    { apply Z.mul_le_mono_nonneg_r; lia. }
    rewrite <- Z.pow_add_r in H by (pose proof (Z.log2_nonneg m); lia).
    replace (Z.log2 m + (52 - Z.log2 m)) with 52 in H by lia. exact H.
  - apply rne_normal; assumption.
Qed.

(** What [binary_round] hands to [binary_round_aux] has the same value and
    needs no further shift to the left. *)
Lemma shl_align_norm m e :
  exists m' e',
    shl_align m e (fexp prec emax (Zpos (digits2_pos m) + e)) = (m', e') /\
    e' <= rexp (Zpos m') e' /\ e' <= e /\
    forall e0, e0 <= e' -> Zpos m' * 2 ^ (e' - e0) = Zpos m * 2 ^ (e - e0).
Proof.
  rewrite shl_align_spec. cbv zeta.
  remember (rexp (Zpos m) e) as E eqn:HE.
  destruct (Z.ltb_spec E e) as [Hlt|Hge].
  - exists (Z.to_pos (Zpos m * 2 ^ (e - E))), E.
    assert (Hp : 0 < Zpos m * 2 ^ (e - E)) by lia.
    rewrite Z2Pos.id by exact Hp.
    split; [reflexivity|]. split.
    + rewrite (rexp_shifted (Zpos m) e E); [apply Z.le_refl|reflexivity|exact HE|exact Hlt].
    + split; [apply Z.lt_le_incl, Hlt|].
      intros e0 H0. rewrite <- Z.mul_assoc. f_equal.
      rewrite <- Z.pow_add_r; [f_equal; ring| |]; apply Z.le_0_sub;
        [apply Z.lt_le_incl, Hlt|exact H0].
  - exists m, e. split; [reflexivity|]. split; [rewrite <- HE; exact Hge|].
    split; [apply Z.le_refl|reflexivity].
Qed.

Theorem binary_round_mono m1 e1 m2 e2 :
  vle (Zpos m1) e1 (Zpos m2) e2 ->
  SFleb (binary_round prec emax false m1 e1) (binary_round prec emax false m2 e2) = true.
Proof.
  intros V. unfold binary_round.
  destruct (shl_align_norm m1 e1) as (m1' & e1' & S1 & N1 & L1 & V1).
  destruct (shl_align_norm m2 e2) as (m2' & e2' & S2 & N2 & L2 & V2).
  rewrite S1, S2.
  apply binary_round_aux_mono; [reflexivity|reflexivity|exact N1|exact N2|].
  unfold vle. rewrite V1, V2 by apply Z.le_min_l || apply Z.le_min_r.
  apply (vle_base _ _ _ _ (Z.min e1' e2')) in V; [exact V| |].
  - eapply Z.le_trans; [apply Z.le_min_l|exact L1].
  - eapply Z.le_trans; [apply Z.le_min_r|exact L2].
Qed.

(** The valid mantissas, arithmetically. *)
Lemma bounded_iff p e :
  bounded prec emax p e = true <-> rexp (Zpos p) e = e /\ e <= 971.
Proof.
  unfold bounded, canonical_mantissa. rewrite fexp_eq, digits2_log2.
  fold (mag (Zpos p) e). fold (rexp (Zpos p) e).
  rewrite andb_true_iff, Z.eqb_eq, Z.leb_le. change (emax - prec) with 971. tauto.
Qed.

Lemma canonical_log2 m e : 0 < m -> rexp m e = e ->
  Z.log2 m <= 52 /\ -1074 <= e /\ (-1074 < e -> Z.log2 m = 52).
Proof. unfold rexp, mag. lia. Qed.

Lemma canonical_range m e : 0 < m -> rexp m e = e ->
  m < 2 ^ 53 /\ (-1074 < e -> 2 ^ 52 <= m).
Proof.
  intros Hm Hc. destruct (canonical_log2 m e Hm Hc) as (Hl & He & Hn).
  pose proof (Z.log2_spec m Hm) as [Hlo Hhi]. split.
  - eapply Z.lt_le_trans; [exact Hhi|]. apply Z.pow_le_mono_r; lia.
  - intros H. rewrite <- (Hn H). exact Hlo.
Qed.

Lemma pack_valid s q E : 0 <= q < 2 ^ 53 -> -1074 <= E -> (-1074 < E -> 2 ^ 52 <= q) ->
  valid_binary (pack s q E) = true.
Proof.
  intros Hq HE Hn. unfold pack. destruct q as [|p|p]; try lia; [reflexivity|].
  destruct (Z.leb_spec E 971); [|reflexivity].
  apply bounded_iff. split; [|assumption].
  assert (Hl : Z.log2 (Zpos p) + 1 <= 53) by (apply log2_lt_pow2'; lia).
  unfold rexp, mag. destruct (Z.eq_dec E (-1074)) as [->|Hne]; [lia|].
  assert (52 <= Z.log2 (Zpos p)) by (apply Z.log2_le_pow2; lia). lia.
Qed.

Lemma build_valid s q E : 0 <= q <= 2 ^ 53 -> -1074 <= E -> (-1074 < E -> 2 ^ 52 <= q) ->
  valid_binary (build s q E) = true.
Proof.
  intros Hq HE Hn. unfold build. destruct (Z.eqb_spec q (2 ^ 53)).
  - apply pack_valid; lia.
  - apply pack_valid; lia.
Qed.

(** A rounded result is a valid binary64 number. *)
Lemma binary_round_valid s m e : valid_binary (binary_round prec emax s m e) = true.
Proof.
  rewrite binary_round_spec. apply build_valid.
  - apply rnd_bounds; lia.
  - unfold rexp; lia.
  - apply rnd_normal; lia.
Qed.

(** On canonical mantissas the order by exponent, then by mantissa, is the
    order of the values. *)
Lemma canonical_compare m1 e1 m2 e2 :
  0 < m1 -> 0 < m2 -> rexp m1 e1 = e1 -> rexp m2 e2 = e2 ->
  match e1 ?= e2 with Lt => Lt | Gt => Gt | Eq => m1 ?= m2 end =
  (m1 * 2 ^ (e1 - Z.min e1 e2) ?= m2 * 2 ^ (e2 - Z.min e1 e2)).
Proof.
  intros H1 H2 C1 C2.
  destruct (canonical_range m1 e1 H1 C1) as [U1 N1].
  destruct (canonical_range m2 e2 H2 C2) as [U2 N2].
  destruct (canonical_log2 m1 e1 H1 C1) as (_ & L1 & _).
  destruct (canonical_log2 m2 e2 H2 C2) as (_ & L2 & _).
  destruct (Z.compare_spec e1 e2) as [->|Hlt|Hgt].
  - rewrite Z.min_id, Z.sub_diag. change (2 ^ 0) with 1. rewrite !Z.mul_1_r. reflexivity.
  - rewrite Z.min_l, Z.sub_diag by lia. change (2 ^ 0) with 1. rewrite Z.mul_1_r.
    symmetry. apply Z.compare_lt_iff.
    assert (2 ^ 1 <= 2 ^ (e2 - e1)) by (apply Z.pow_le_mono_r; lia).
    change (2 ^ 1) with 2 in *. specialize (N2 ltac:(lia)). nia.
  - rewrite Z.min_r, Z.sub_diag by lia. change (2 ^ 0) with 1. rewrite Z.mul_1_r.
    symmetry. apply Z.compare_gt_iff.
    assert (2 ^ 1 <= 2 ^ (e1 - e2)) by (apply Z.pow_le_mono_r; lia).
    change (2 ^ 1) with 2 in *. specialize (N1 ltac:(lia)). nia.
Qed.

(** ** Facts on [spec_float] *)

Lemma fin_nonneg_nonneg x : fin_nonneg x = true -> nonneg x = true.
Proof. destruct x as [?|[]| |[] ? ?]; intros H; try discriminate H; reflexivity. Qed.

Lemma SFleb_zero_nonneg s x : nonneg x = true -> SFleb (S754_zero s) x = true.
Proof. destruct x as [?|[]| |[] ? ?]; intros H; try discriminate H; reflexivity. Qed.

Lemma SFleb_nonneg_inf x : nonneg x = true -> SFleb x (S754_infinity false) = true.
Proof. destruct x as [?|[]| |[] ? ?]; intros H; try discriminate H; reflexivity. Qed.

Lemma pack_nonneg q E : 0 <= q -> nonneg (pack false q E) = true.
Proof.
  intros Hq. unfold pack. destruct q; try lia; [reflexivity|].
  destruct (E <=? 971); reflexivity.
Qed.

Lemma build_nonneg q E : 0 <= q -> nonneg (build false q E) = true.
Proof.
  intros Hq. unfold build. destruct (q =? 2 ^ 53); apply pack_nonneg; lia.
Qed.

Lemma binary_round_nonneg m e : nonneg (binary_round prec emax false m e) = true.
Proof. rewrite binary_round_spec. apply build_nonneg, rnd_bounds. lia. Qed.

(** The product of two valid mantissas needs no shift to the left. *)
Lemma mul_rexp_ok mx ex my ey :
  bounded prec emax mx ex = true -> bounded prec emax my ey = true ->
  ex + ey <= rexp (Zpos (mx * my)) (ex + ey).
Proof.
  intros Bx By. apply bounded_iff in Bx, By. destruct Bx as [Cx _], By as [Cy _].
  pose proof (Z.log2_mul_below (Zpos mx) (Zpos my) ltac:(lia) ltac:(lia)) as Hl.
  pose proof (Z.log2_nonneg (Zpos mx)). pose proof (Z.log2_nonneg (Zpos my)).
  rewrite Pos2Z.inj_mul. unfold rexp, mag in *. lia.
Qed.

Lemma SFleb_finite_vle ma ea mb eb :
  bounded prec emax ma ea = true -> bounded prec emax mb eb = true ->
  SFleb (S754_finite false ma ea) (S754_finite false mb eb) = true ->
  vle (Zpos ma) ea (Zpos mb) eb.
Proof.
  intros Ba Bb. apply bounded_iff in Ba, Bb. destruct Ba as [Ca _], Bb as [Cb _].
  unfold SFleb, SFcompare.
  change (Pos.compare_cont Eq ma mb) with (Zpos ma ?= Zpos mb).
  pose proof (canonical_compare (Zpos ma) ea (Zpos mb) eb ltac:(lia) ltac:(lia) Ca Cb) as Hc.
  unfold vle. intros H. apply Z.compare_le_iff. intros Hgt.
  rewrite Hgt in Hc.
  destruct (ea ?= eb); try discriminate; rewrite Hc in H; discriminate.
Qed.

Lemma vle_mul m ma ea mb eb e :
  0 < m -> vle ma ea mb eb -> vle (m * ma) (e + ea) (m * mb) (e + eb).
Proof.
  unfold vle. intros Hm H.
  replace (Z.min (e + ea) (e + eb)) with (e + Z.min ea eb) by lia.
  replace (e + ea - (e + Z.min ea eb)) with (ea - Z.min ea eb) by lia.
  replace (e + eb - (e + Z.min ea eb)) with (eb - Z.min ea eb) by lia.
  rewrite <- !Z.mul_assoc. apply Z.mul_le_mono_nonneg_l; lia.
Qed.

Lemma SFmul_nonneg x a :
  valid_binary x = true -> valid_binary a = true ->
  fin_nonneg x = true -> fin_nonneg a = true ->
  nonneg (SF64mul x a) = true.
Proof.
  intros Vx Va Fx Fa.
  destruct x as [sx| | |[] mx ex], a as [sa| | |[] ma ea]; try discriminate;
    try reflexivity.
  unfold SF64mul, SFmul. cbn [xorb].
  rewrite binary_round_aux_exact by (try apply mul_rexp_ok; try assumption; lia).
  apply build_nonneg, rne_nonneg. lia.
Qed.

(** Multiplication by a finite [x >= 0] is monotone on finite numbers
    [0 <= a <= b], overflow to infinity included. *)
Theorem SFmul_mono x a b :
  valid_binary x = true -> valid_binary a = true -> valid_binary b = true ->
  fin_nonneg x = true -> fin_nonneg a = true -> fin_nonneg b = true ->
  SFleb a b = true ->
  SFleb (SF64mul x a) (SF64mul x b) = true.
Proof.
  intros Vx Va Vb Fx Fa Fb Hab.
  destruct x as [sx| | |[] mx ex]; try discriminate.
  - destruct a as [sa| | |[] ma ea], b as [sb| | |[] mb eb]; try discriminate; reflexivity.
  - destruct a as [sa| | |[] ma ea]; try discriminate.
    + apply SFleb_zero_nonneg with (s := xorb false sa).
      apply SFmul_nonneg with (x := S754_finite false mx ex); assumption.
    + destruct b as [sb| | |[] mb eb]; try discriminate.
      unfold SF64mul, SFmul. cbn [xorb].
      apply binary_round_aux_mono; try lia; try (apply mul_rexp_ok; assumption).
      rewrite !Pos2Z.inj_mul. apply vle_mul; [lia|].
      apply SFleb_finite_vle; assumption.
Qed.

Lemma SFmul_comm x y : SF64mul x y = SF64mul y x.
Proof.
  unfold SF64mul, SFmul.
  destruct x as [sx|sx| |sx mx ex], y as [sy|sy| |sy my ey];
    rewrite ?(xorb_comm sx sy); try reflexivity.
  rewrite (Pos.mul_comm mx my), (Z.add_comm ex ey). reflexivity.
Qed.

(** Rounding a number that is already a float returns it. *)
Lemma binary_round_aux_scaled s m e k :
  bounded prec emax m e = true -> 0 <= k ->
  binary_round_aux prec emax s (Zpos m * 2 ^ k) (e - k) loc_Exact = S754_finite s m e.
Proof.
  intros B Hk. apply bounded_iff in B. destruct B as [C He].
  assert (HR : rexp (Zpos m * 2 ^ k) (e - k) = e) by (rewrite rexp_scale; lia).
  rewrite binary_round_aux_exact by lia.
  rewrite HR. replace (e - (e - k)) with k by lia. rewrite rne_exact by assumption.
  destruct (canonical_range (Zpos m) e ltac:(lia) C) as [Hu _].
  unfold build. destruct (Z.eqb_spec (Zpos m) (2 ^ 53)); [lia|].
  unfold pack. destruct (Z.leb_spec e 971); [reflexivity|lia].
Qed.

Lemma binary_round_canonical s m e :
  bounded prec emax m e = true -> binary_round prec emax s m e = S754_finite s m e.
Proof.
  intros B. pose proof (binary_round_aux_scaled s m e 0 B ltac:(lia)) as H.
  change (2 ^ 0) with 1 in H. rewrite Z.mul_1_r, Z.sub_0_r in H.
  unfold binary_round. rewrite shl_align_spec.
  apply bounded_iff in B. destruct B as [C _]. rewrite C, Z.ltb_irrefl. exact H.
Qed.

(** Multiplying and dividing by one are exact. *)
Lemma SFmul_one x : valid_binary x = true -> SF64mul x SF64one = x.
Proof.
  intros V. destruct x as [s|s| |s m e]; unfold SF64mul, SFmul, SF64one;
    rewrite ?xorb_false_r; try reflexivity.
  rewrite Pos2Z.inj_mul. change (Zpos 4503599627370496) with (2 ^ 52).
  change (e + -52) with (e - 52).
  apply binary_round_aux_scaled; [exact V|lia].
Qed.

Lemma SFdiv_one x : valid_binary x = true -> SF64div x SF64one = x.
Proof.
  intros V. destruct x as [s|s| |s m e]; unfold SF64div, SFdiv, SF64one;
    rewrite ?xorb_false_r; try reflexivity.
  pose proof V as B. apply bounded_iff in B. destruct B as [C He].
  unfold SFdiv_core_binary.
  rewrite fexp_eq. rewrite (Zdigits2_log2 (Zpos m)) by lia.
  change (Zdigits2 (Zpos 4503599627370496)) with 53.
  set (e' := Z.min (Z.max (Z.log2 (Zpos m) + 1 + e - (53 + -52) - 53) (-1074)) (e - -52)).
  assert (He' : e' <= e) by (unfold e', rexp, mag in *; lia).
  assert (Hs : e - -52 - e' = 52 + (e - e')) by lia.
  rewrite Hs.
  destruct (52 + (e - e')) eqn:Hk; try lia.
  rewrite Z.shiftl_mul_pow2 by lia. rewrite <- Hk.
  rewrite Z.pow_add_r by lia. change (Zpos 4503599627370496) with (2 ^ 52).
  replace (Zpos m * (2 ^ 52 * 2 ^ (e - e'))) with (Zpos m * 2 ^ (e - e') * 2 ^ 52) by lia.
  pose proof (Z.div_eucl_eq (Zpos m * 2 ^ (e - e') * 2 ^ 52) (2 ^ 52) ltac:(lia)) as D.
  assert (Hq : Z.div_eucl (Zpos m * 2 ^ (e - e') * 2 ^ 52) (2 ^ 52) = (Zpos m * 2 ^ (e - e'), 0)).
  { rewrite (surjective_pairing (Z.div_eucl _ _)).
    change (fst (Z.div_eucl ?a ?b)) with (a / b).
    change (snd (Z.div_eucl ?a ?b)) with (a mod b).
    rewrite Z.div_mul, Z.mod_mul by lia. reflexivity. }
  rewrite Hq. change (new_location (2 ^ 52) 0) with loc_Exact.
  replace e' with (e - (e - e')) at 2 by lia.
  apply binary_round_aux_scaled; [exact V|lia].
Qed.

(** Comparison, the other way round. *)
Lemma SFcompare_antisym x y : SFcompare y x = option_map CompOpp (SFcompare x y).
Proof.
  destruct x as [sx|sx| |sx mx ex], y as [sy|sy| |sy my ey];
    try destruct sx; try destruct sy; try reflexivity;
    unfold SFcompare; cbn [option_map]; f_equal;
    rewrite (Z.compare_antisym ex ey);
    change (Pos.compare_cont Eq my mx) with (Pos.compare my mx);
    change (Pos.compare_cont Eq mx my) with (Pos.compare mx my);
    rewrite (Pos.compare_antisym mx my);
    destruct (ex ?= ey); cbn [CompOpp]; rewrite ?CompOpp_involutive; reflexivity.
Qed.

Lemma shl_align_fst m e ez : ez <= e ->
  Zpos (fst (shl_align m e ez)) = Zpos m * 2 ^ (e - ez).
Proof.
  intros H. unfold shl_align. destruct (ez - e) eqn:Hd; try lia; cbn [fst].
  - replace (e - ez) with 0 by lia. lia.
  - rewrite iter_xO. do 2 f_equal. lia.
Qed.

(** Comparing two finite numbers is comparing their signed mantissas at a
    common exponent. *)
Lemma SFcompare_signed sy my ey sx mx ex :
  bounded prec emax my ey = true -> bounded prec emax mx ex = true ->
  SFcompare (S754_finite sy my ey) (S754_finite sx mx ex) =
  Some (cond_Zopp sy (Zpos my * 2 ^ (ey - Z.min ey ex))
        ?= cond_Zopp sx (Zpos mx * 2 ^ (ex - Z.min ey ex))).
Proof.
  intros By Bx. apply bounded_iff in By, Bx. destruct By as [Cy _], Bx as [Cx _].
  pose proof (canonical_compare (Zpos my) ey (Zpos mx) ex ltac:(lia) ltac:(lia) Cy Cx) as Hc.
  set (A := Zpos my * 2 ^ (ey - Z.min ey ex)) in *.
  set (B := Zpos mx * 2 ^ (ex - Z.min ey ex)) in *.
  assert (HA : 0 < A) by (unfold A; lia).
  assert (HB : 0 < B) by (unfold B; lia).
  unfold SFcompare, cond_Zopp. f_equal.
  change (Pos.compare_cont Eq my mx) with (Zpos my ?= Zpos mx).
  destruct sy, sx.
  - rewrite Z.compare_opp, (Z.compare_antisym A B), <- Hc.
    destruct (ey ?= ex); reflexivity.
  - symmetry. apply Z.compare_lt_iff. lia.
  - symmetry. apply Z.compare_gt_iff. lia.
  - rewrite <- Hc. destruct (ey ?= ex); reflexivity.
Qed.

Lemma rnd_pos m e : 0 < m -> -1074 <= e -> 1 <= rnd m e.
Proof.
  intros Hm He. unfold rnd. destruct (Z.ltb_spec (rexp m e) e) as [Hlt|Hge].
  - assert (0 < 2 ^ (e - rexp m e)) by lia. nia.
  - pose proof (rne_bounds m (rexp m e - e)) as [H _].
    eapply Z.le_trans; [|exact H].
    apply Z.div_le_lower_bound; [lia|]. rewrite Z.mul_1_r.
    pose proof (Z.log2_spec m Hm) as [Hl _]. pose proof (Z.log2_nonneg m).
    eapply Z.le_trans; [|exact Hl].
    apply Z.pow_le_mono_r; [lia|]. unfold rexp, mag in *. lia.
Qed.

(** Above the least exponent a rounded result is not zero: it has the sign
    it was given. *)
Lemma binary_round_sign s m e : -1074 <= e ->
  SFcompare (binary_round prec emax s m e) (S754_zero false) = Some (if s then Lt else Gt).
Proof.
  intros He. rewrite binary_round_spec.
  pose proof (rnd_pos (Zpos m) e ltac:(lia) He) as Hq.
  unfold build.
  destruct (rnd (Zpos m) e =? 2 ^ 53); unfold pack.
  - change (2 ^ 52) with (Zpos 4503599627370496).
    destruct (_ <=? 971); reflexivity.
  - destruct (rnd (Zpos m) e); try lia.
    destruct (_ <=? 971); reflexivity.
Qed.

Lemma binary_normalize_compare D e : -1074 <= e ->
  SFcompare (binary_normalize prec emax D e false) (S754_zero false) = Some (D ?= 0).
Proof.
  intros He. destruct D; unfold binary_normalize.
  - reflexivity.
  - apply (binary_round_sign false); assumption.
  - apply (binary_round_sign true); assumption.
Qed.

(** The sign of a difference is the order of its operands. *)
Theorem SFsub_compare y x :
  valid_binary y = true -> valid_binary x = true ->
  finite_sf y = true -> is_nan_sf x = false ->
  SFcompare (SF64sub y x) (S754_zero false) = SFcompare y x.
Proof.
  intros Vy Vx Fy Nx.
  destruct y as [sy| | |sy my ey]; try discriminate;
    destruct x as [sx|sx| |sx mx ex]; try discriminate;
    try (destruct sy, sx; reflexivity); try (destruct sx; reflexivity);
    try (destruct sy; reflexivity).
  unfold SF64sub, SFsub.
  pose proof Vy as By. pose proof Vx as Bx.
  apply bounded_iff in By, Bx. destruct By as [Cy _], Bx as [Cx _].
  destruct (canonical_log2 (Zpos my) ey ltac:(lia) Cy) as (_ & Ly & _).
  destruct (canonical_log2 (Zpos mx) ex ltac:(lia) Cx) as (_ & Lx & _).
  rewrite binary_normalize_compare by lia.
  rewrite !shl_align_fst by lia.
  rewrite SFcompare_signed by assumption. f_equal.
  set (A := cond_Zopp sy _). set (B := cond_Zopp sx _).
  destruct (Z.compare_spec A B);
    [apply Z.compare_eq_iff|apply Z.compare_lt_iff|apply Z.compare_gt_iff]; lia.
Qed.

(** ** [Math.round] on [spec_float] *)

Lemma binary_normalize_valid n e sz :
  valid_binary (binary_normalize prec emax n e sz) = true.
Proof. destruct n; [reflexivity|apply binary_round_valid|apply binary_round_valid]. Qed.

(** [JS.Math_round] through [Prim2SF]. *)
Lemma Math_round_spec x : Prim2SF (JS.Math_round x) = SFround (Prim2SF x).
Proof.
  unfold JS.Math_round, SFround.
  destruct (Prim2SF x) as [s|s| |s m e] eqn:E; try exact E.
  destruct (0 <=? e); [exact E|]. cbv zeta.
  destruct (JS.round_half_up s m e =? 0).
  - destruct s; reflexivity.
  - apply Prim2SF_SF2Prim, binary_normalize_valid.
Qed.

Lemma round_half_up_nonneg m e : 0 <= JS.round_half_up false m e.
Proof.
  unfold JS.round_half_up, cond_Zopp.
  destruct (Z.le_gt_cases 0 (1 - e)).
  - apply Z.div_pos; [|lia]. assert (0 <= 2 ^ (- e)) by (apply Z.pow_nonneg; lia). lia.
  - rewrite (Z.pow_neg_r 2 (1 - e)) by lia. rewrite Z.div_0_r. lia.
Qed.

Lemma round_half_up_le m e : Zpos m < 2 ^ 53 -> e < 0 ->
  JS.round_half_up false m e <= 2 ^ 52.
Proof.
  intros Hm He. unfold JS.round_half_up, cond_Zopp.
  assert (H : (2 * Zpos m + 2 ^ (- e)) / 2 ^ (1 - e) < 2 ^ 52 + 1); [|lia].
  apply Z.div_lt_upper_bound; [lia|].
  replace (1 - e) with (- e + 1) by lia. rewrite Z.pow_add_r, Z.pow_1_r by lia.
  assert (2 ^ 1 <= 2 ^ (- e)) by (apply Z.pow_le_mono_r; lia).
  change (2 ^ 1) with 2 in *. nia.
Qed.

Lemma round_half_up_mono m1 e1 m2 e2 : e1 < 0 -> e2 < 0 ->
  vle (Zpos m1) e1 (Zpos m2) e2 ->
  JS.round_half_up false m1 e1 <= JS.round_half_up false m2 e2.
Proof.
  intros H1 H2 V. unfold vle in V. set (e0 := Z.min e1 e2) in *.
  assert (R : forall m e, e0 <= e -> e < 0 ->
    JS.round_half_up false m e = (2 * (Zpos m * 2 ^ (e - e0)) + 2 ^ (- e0)) / 2 ^ (1 - e0)).
  { intros m e Le He. unfold JS.round_half_up, cond_Zopp.
    rewrite <- (Z.div_mul_cancel_r _ _ (2 ^ (e - e0))) by lia.
    rewrite <- Z.pow_add_r by lia. rewrite Z.mul_add_distr_r.
    rewrite <- Z.pow_add_r by lia.
    f_equal; [|f_equal; lia]. f_equal; [lia|f_equal; lia]. }
  rewrite (R m1 e1), (R m2 e2) by (unfold e0; lia).
  apply Z.div_le_mono; lia.
Qed.

Lemma SFround_nonneg x : nonneg x = true -> nonneg (SFround x) = true.
Proof.
  destruct x as [s|[]| |[] m e]; intros H; try discriminate H; try reflexivity.
  unfold SFround. destruct (0 <=? e); [reflexivity|]. cbv zeta.
  pose proof (round_half_up_nonneg m e) as Hn.
  destruct (JS.round_half_up false m e) as [|p|p]; try lia; [reflexivity|].
  apply binary_round_nonneg.
Qed.

(** [Math.round] is monotone on the numbers [x >= 0], infinity included. *)
Theorem SFround_mono x y :
  valid_binary x = true -> valid_binary y = true ->
  nonneg x = true -> nonneg y = true ->
  SFleb x y = true -> SFleb (SFround x) (SFround y) = true.
Proof.
  intros Vx Vy Nx Ny H.
  destruct x as [sx|[]| |[] mx ex]; try discriminate.
  - apply SFleb_zero_nonneg, SFround_nonneg, Ny.
  - destruct y as [sy|[]| |[] my ey]; try discriminate. reflexivity.
  - destruct y as [sy|[]| |[] my ey]; try discriminate.
    + apply SFleb_nonneg_inf. apply (SFround_nonneg (S754_finite false mx ex)). reflexivity.
    + pose proof (SFleb_finite_vle _ _ _ _ Vx Vy H) as V.
      pose proof Vx as Bx. pose proof Vy as By.
      apply bounded_iff in Bx, By. destruct Bx as [Cx _], By as [Cy _].
      destruct (canonical_range (Zpos mx) ex ltac:(lia) Cx) as [Ux _].
      destruct (canonical_range (Zpos my) ey ltac:(lia) Cy) as [_ Ly].
      unfold SFround. destruct (Z.leb_spec 0 ex) as [Hx|Hx], (Z.leb_spec 0 ey) as [Hy|Hy].
      * exact H.
      * exfalso. unfold SFleb, SFcompare in H.
        destruct (Z.compare_spec ex ey); try lia; discriminate.
      * cbv zeta. pose proof (round_half_up_nonneg mx ex) as Hn.
        pose proof (round_half_up_le mx ex Ux Hx) as Hu.
        destruct (JS.round_half_up false mx ex) as [|p|p]; try lia; [reflexivity|].
        cbn [Z.eqb binary_normalize].
        rewrite <- (binary_round_canonical false my ey Vy).
        apply binary_round_mono. unfold vle.
        rewrite Z.min_l, Z.sub_diag, Z.sub_0_r by lia. change (2 ^ 0) with 1.
        specialize (Ly ltac:(lia)).
        assert (1 <= 2 ^ ey) by lia. nia.
      * cbv zeta. pose proof (round_half_up_mono mx ex my ey Hx Hy V) as Hm.
        pose proof (round_half_up_nonneg mx ex) as Hn.
        destruct (JS.round_half_up false mx ex) as [|p|p]; try lia.
        -- cbn [Z.eqb]. apply SFleb_zero_nonneg.
           apply (SFround_nonneg (S754_finite false my ey)) in Ny.
           unfold SFround in Ny. destruct (Z.leb_spec 0 ey); [lia|exact Ny].
        -- destruct (JS.round_half_up false my ey) as [|q|q]; try lia.
           cbn [Z.eqb binary_normalize].
           apply binary_round_mono. unfold vle. rewrite Z.min_id, Z.sub_diag.
           change (2 ^ 0) with 1. lia.
Qed.

(** [is_finite] and [is_nan] through [Prim2SF]. *)
Lemma is_finite_spec x : is_finite x = finite_sf (Prim2SF x).
Proof.
  unfold is_finite, is_nan, is_infinity. rewrite !eqb_spec, abs_spec.
  change (Prim2SF infinity) with (S754_infinity false).
  destruct (Prim2SF x) as [[]|[]| |[] m e]; try reflexivity;
    cbn [SFeqb SFabs SFcompare finite_sf];
    rewrite Z.compare_refl, Pos.compare_cont_refl; reflexivity.
Qed.

(** ** A division that cannot overflow *)

(** The mantissa and exponent after a shift, whatever the bits lost. *)
Lemma shr_m_spec mrs e n : 0 <= shr_m mrs ->
  shr_m (fst (shr mrs e n)) = shr_m mrs / 2 ^ Z.max n 0 /\
  snd (shr mrs e n) = e + Z.max n 0.
Proof.
  destruct mrs as [m r s]. cbn [shr_m]. intros Hm. unfold shr.
  destruct n as [|p|p]; cbn [fst snd].
  - change (2 ^ Z.max 0 0) with 1. rewrite Z.div_1_r. cbn [shr_m]. lia.
  - rewrite iter_pos_iter, iter_shr_1 by assumption. cbn [shr_m].
    rewrite Z.max_l by lia. split; reflexivity.
  - rewrite Z.max_r by lia. change (2 ^ 0) with 1. rewrite Z.div_1_r. cbn [shr_m]. lia.
Qed.

Lemma round_nearest_even_bounds m l :
  m <= round_nearest_even m l <= m + 1.
Proof.
  destruct l as [|[]]; cbn [round_nearest_even]; try destruct (Z.even m); lia.
Qed.

Lemma Zdigits2_le_pow2 q j : 0 <= q <= 2 ^ j -> 0 <= j -> Zdigits2 q <= j + 1.
Proof.
  intros Hq Hj. destruct (Z.eq_dec q 0) as [->|Hn]; [simpl; lia|].
  rewrite Zdigits2_log2 by lia.
  assert (Z.log2 q <= Z.log2 (2 ^ j)) by (apply Z.log2_le_mono; lia).
  rewrite Z.log2_pow2 in H by assumption. lia.
Qed.

Lemma Zdigits2_lt_pow2 m j : 0 <= m < 2 ^ j -> 0 <= j -> Zdigits2 m <= j.
Proof.
  intros Hm Hj. destruct (Z.eq_dec m 0) as [->|Hn]; [simpl; lia|].
  rewrite Zdigits2_log2 by lia. apply log2_lt_pow2'; lia.
Qed.

(** Rounding a number below [2^1023] gives zero or a finite number, of the
    sign given. *)
Lemma binary_round_aux_fin s m e l :
  0 <= m -> e <= 971 -> m < 2 ^ (1023 - e) ->
  match binary_round_aux prec emax s m e l with
  | S754_zero s' | S754_finite s' _ _ => s' = s
  | _ => False
  end.
Proof.
  intros Hm He Hlt. unfold binary_round_aux, shr_fexp. rewrite fexp_eq.
  pose proof (Zdigits2_lt_pow2 m (1023 - e) ltac:(lia) ltac:(lia)) as Hd.
  set (n1 := Z.max (Zdigits2 m + e - 53) (-1074) - e).
  assert (Hm0 : shr_m (shr_record_of_loc m l) = m) by (destruct l as [|[]]; reflexivity).
  pose proof (shr_m_spec (shr_record_of_loc m l) e n1 ltac:(lia)) as [M1 E1].
  destruct (shr (shr_record_of_loc m l) e n1) as [mrs1 e1]. cbn [fst snd] in M1, E1.
  rewrite Hm0 in M1. cbv beta iota. rewrite fexp_eq.
  pose proof (round_nearest_even_bounds (shr_m mrs1) (loc_of_shr_record mrs1)) as Hq.
  set (q := round_nearest_even (shr_m mrs1) (loc_of_shr_record mrs1)) in *.
  assert (He1 : e1 <= 971) by (unfold n1 in *; lia).
  assert (Hk : 0 <= Z.max n1 0) by lia.
  assert (Hm1 : 0 <= shr_m mrs1 < 2 ^ (1023 - e1)).
  { rewrite M1. split; [apply Z.div_pos; lia|].
    apply Z.div_lt_upper_bound; [lia|]. rewrite <- Z.pow_add_r by lia.
    replace (Z.max n1 0 + (1023 - e1)) with (1023 - e) by lia. exact Hlt. }
  pose proof (Zdigits2_le_pow2 q (1023 - e1) ltac:(lia) ltac:(lia)) as Hdq.
  set (n2 := Z.max (Zdigits2 q + e1 - 53) (-1074) - e1).
  pose proof (shr_m_spec (shr_record_of_loc q loc_Exact) e1 n2 ltac:(cbn; lia)) as [M2 E2].
  destruct (shr (shr_record_of_loc q loc_Exact) e1 n2) as [mrs2 e2]. cbn [fst snd] in M2, E2.
  cbn [shr_record_of_loc shr_m] in M2. cbv beta iota.
  assert (H2 : 0 <= shr_m mrs2).
  { pose proof (Z.div_pos q (2 ^ Z.max n2 0) ltac:(lia) ltac:(lia)). lia. }
  destruct (shr_m mrs2); try lia; [exact eq_refl|].
  destruct (Z.leb_spec e2 (emax - prec)) as [_|Hbad]; [exact eq_refl|].
  change (emax - prec) with 971 in Hbad. unfold n2 in *. lia.
Qed.

(** A finite number divided by ten is finite, and keeps its sign. *)
Lemma SFdiv_ten_shape s m e :
  bounded prec emax m e = true ->
  match SF64div (S754_finite s m e) SF64ten with
  | S754_zero s' | S754_finite s' _ _ => s' = s
  | _ => False
  end.
Proof.
  intros B. apply bounded_iff in B. destruct B as [C He].
  destruct (canonical_range (Zpos m) e ltac:(lia) C) as [Hu _].
  destruct (canonical_log2 (Zpos m) e ltac:(lia) C) as (Hl & _ & _).
  unfold SF64div, SFdiv, SF64ten, SFdiv_core_binary. rewrite xorb_false_r.
  rewrite fexp_eq, (Zdigits2_log2 (Zpos m)) by lia.
  change (Zdigits2 (Zpos 5629499534213120)) with 53.
  set (e' := Z.min (Z.max (Z.log2 (Zpos m) + 1 + e - (53 + -49) - 53) (-1074)) (e - -49)).
  set (sh := e - -49 - e').
  assert (He' : e' <= 967) by (unfold e'; lia).
  assert (Hs : 0 <= sh) by (unfold sh, e'; lia).
  set (m' := match sh with Zpos _ => Z.shiftl (Zpos m) sh | Z0 => Zpos m | Zneg _ => 0 end).
  assert (Hm' : m' = Zpos m * 2 ^ sh).
  { unfold m'. clearbody sh. destruct sh; try lia.
    apply Z.shiftl_mul_pow2. lia. }
  rewrite (surjective_pairing (Z.div_eucl m' _)).
  change (fst (Z.div_eucl ?a ?b)) with (a / b).
  apply binary_round_aux_fin.
  - apply Z.div_pos; lia.
  - lia.
  - apply Z.div_lt_upper_bound; [lia|]. rewrite Hm'.
    assert (P : 2 ^ (1023 - e') = 2 ^ (sh + 1) * 2 ^ (1022 - e' - sh)).
    { rewrite <- Z.pow_add_r by (unfold sh; lia). f_equal. lia. }
    rewrite P, Z.pow_add_r, Z.pow_1_r by lia.
    assert (1 <= 2 ^ (1022 - e' - sh)) by (unfold sh; lia).
    assert (0 < 2 ^ sh) by lia. nia.
Qed.

Lemma SFdiv_ten_fin x :
  valid_binary x = true -> fin_nonneg x = true ->
  fin_nonneg (SF64div x SF64ten) = true.
Proof.
  intros V F. destruct x as [s| | |[] m e]; try discriminate; [reflexivity|].
  pose proof (SFdiv_ten_shape false m e V) as H.
  destruct (SF64div (S754_finite false m e) SF64ten) as [s'| | |s' p' e''];
    try contradiction; [reflexivity|]. rewrite H. reflexivity.
Qed.

Lemma SFdiv_ten_finite x :
  valid_binary x = true -> finite_sf x = true -> finite_sf (SF64div x SF64ten) = true.
Proof.
  intros V F. destruct x as [s| | |s m e]; try discriminate; [reflexivity|].
  pose proof (SFdiv_ten_shape s m e V) as H.
  destruct (SF64div (S754_finite s m e) SF64ten) as [s'| | |s' p' e''];
    try contradiction; reflexivity.
Qed.

(** ** Operations that cannot give NaN *)

(** Rounding never gives NaN. *)
Lemma binary_round_aux_not_nan s m e l :
  0 <= m -> is_nan_sf (binary_round_aux prec emax s m e l) = false.
Proof.
  intros Hm. unfold binary_round_aux, shr_fexp.
  assert (Hm0 : shr_m (shr_record_of_loc m l) = m) by (destruct l as [|[]]; reflexivity).
  set (n1 := fexp prec emax (Zdigits2 m + e) - e).
  pose proof (shr_m_spec (shr_record_of_loc m l) e n1 ltac:(lia)) as [M1 _].
  destruct (shr (shr_record_of_loc m l) e n1) as [mrs1 e1]. cbn [fst] in M1.
  rewrite Hm0 in M1. cbv beta iota.
  pose proof (round_nearest_even_bounds (shr_m mrs1) (loc_of_shr_record mrs1)) as Hq.
  set (q := round_nearest_even (shr_m mrs1) (loc_of_shr_record mrs1)) in *.
  assert (Hq0 : 0 <= q).
  { pose proof (Z.div_pos m (2 ^ Z.max n1 0) Hm ltac:(lia)). lia. }
  set (n2 := fexp prec emax (Zdigits2 q + e1) - e1).
  pose proof (shr_m_spec (shr_record_of_loc q loc_Exact) e1 n2 ltac:(cbn; lia)) as [M2 _].
  destruct (shr (shr_record_of_loc q loc_Exact) e1 n2) as [mrs2 e2]. cbn [fst] in M2.
  cbn [shr_record_of_loc shr_m] in M2. cbv beta iota.
  assert (H2 : 0 <= shr_m mrs2).
  { pose proof (Z.div_pos q (2 ^ Z.max n2 0) Hq0 ltac:(lia)). lia. }
  destruct (shr_m mrs2); try lia; [reflexivity|].
  destruct (e2 <=? emax - prec); reflexivity.
Qed.

Lemma binary_normalize_not_nan n e sz :
  is_nan_sf (binary_normalize prec emax n e sz) = false.
Proof.
  destruct n as [|p|p]; [reflexivity| |];
    unfold binary_normalize, binary_round;
    destruct (shl_align p e _) as [mz ez];
    apply binary_round_aux_not_nan; lia.
Qed.

Lemma finite_not_nan x : finite_sf x = true -> is_nan_sf x = false.
Proof. destruct x; cbn; congruence. Qed.

Lemma SFsub_not_nan x y :
  is_nan_sf x = false -> is_nan_sf y = false ->
  finite_sf x || finite_sf y = true ->
  is_nan_sf (SF64sub x y) = false.
Proof.
  intros Nx Ny F.
  destruct x as [[]|[]| |sx mx ex], y as [[]|[]| |sy my ey];
    try discriminate; try reflexivity.
  apply binary_normalize_not_nan.
Qed.

Lemma SFmul_not_nan x y :
  finite_sf x = true -> finite_sf y = true -> finite_sf (SF64mul x y) = true \/
  exists s, SF64mul x y = S754_infinity s.
Proof.
  intros Fx Fy.
  destruct x as [sx| | |sx mx ex], y as [sy| | |sy my ey];
    try discriminate; try (left; reflexivity).
  unfold SF64mul, SFmul.
  pose proof (binary_round_aux_not_nan (xorb sx sy) (Zpos (mx * my)) (ex + ey)
                loc_Exact ltac:(lia)) as H.
  destruct (binary_round_aux prec emax (xorb sx sy) (Zpos (mx * my)) (ex + ey) loc_Exact);
    try discriminate; eauto.
Qed.

Lemma SFdiv_not_nan x y :
  is_nan_sf x = false -> is_nan_sf y = false ->
  SFeqb y (S754_zero false) = false ->
  finite_sf x || finite_sf y = true ->
  is_nan_sf (SF64div x y) = false.
Proof.
  intros Nx Ny Zy F.
  destruct x as [sx|sx| |sx mx ex], y as [sy|sy| |sy my ey];
    try discriminate; try reflexivity.
  unfold SF64div, SFdiv, SFdiv_core_binary.
  set (s := ex - ey - _).
  set (m' := match s with Zpos _ => Z.shiftl (Zpos mx) s | Z0 => Zpos mx | Zneg _ => 0 end).
  assert (Hm' : 0 <= m').
  { unfold m'. destruct s; try lia. apply Z.shiftl_nonneg. lia. }
  rewrite (surjective_pairing (Z.div_eucl m' (Zpos my))).
  change (fst (Z.div_eucl m' (Zpos my))) with (m' / Zpos my).
  apply binary_round_aux_not_nan. apply Z.div_pos; lia.
Qed.

Lemma SFround_not_nan x : is_nan_sf x = false -> is_nan_sf (SFround x) = false.
Proof.
  destruct x as [s|s| |s m e]; try discriminate; try reflexivity. intros _.
  unfold SFround. destruct (0 <=? e); [reflexivity|]. cbv zeta.
  destruct (JS.round_half_up s m e =? 0); [reflexivity|].
  apply binary_normalize_not_nan.
Qed.

(** ** The primitive operations *)

Local Open Scope float_scope.

Lemma is_nan_spec x : is_nan x = is_nan_sf (Prim2SF x).
Proof.
  unfold is_nan. rewrite eqb_spec.
  destruct (Prim2SF x) as [[]|[]| |[] m e]; try reflexivity;
    cbn [SFeqb SFcompare is_nan_sf];
    rewrite Z.compare_refl, Pos.compare_cont_refl; reflexivity.
Qed.

(** [x / 1] and [x * 1] are [x], for every number. *)
Lemma div_one x : x / 1 = x.
Proof.
  apply Prim2SF_inj. rewrite div_spec. change (Prim2SF 1) with SF64one.
  apply SFdiv_one, Prim2SF_valid.
Qed.

Lemma mul_one x : x * 1 = x.
Proof.
  apply Prim2SF_inj. rewrite mul_spec. change (Prim2SF 1) with SF64one.
  apply SFmul_one, Prim2SF_valid.
Qed.

(** The numbers [=== 0] are the two zeros. *)
Lemma eqb_zero_SF x : (x =? 0) = true <-> exists s, Prim2SF x = S754_zero s.
Proof.
  rewrite eqb_spec. change (Prim2SF 0) with (S754_zero false).
  destruct (Prim2SF x) as [s|[]| |[] m e]; cbn; split;
    try discriminate; try (intros [s' H]; discriminate H); eauto.
Qed.

Lemma eqb_zero_inv x : (x =? 0) = true -> x = 0 \/ x = (-0).
Proof.
  intros H. apply eqb_zero_SF in H. destruct H as [s H].
  rewrite <- (SF2Prim_Prim2SF x), H. destruct s; [right|left]; reflexivity.
Qed.

Lemma leb_false_eqb x y : (x <=? y) = false -> (x =? y) = false.
Proof.
  rewrite leb_spec, eqb_spec. unfold SFleb, SFeqb.
  destruct (SFcompare (Prim2SF x) (Prim2SF y)) as [[]|]; congruence.
Qed.

Lemma ltb_leb_false x y : (x <? y) = true -> (y <=? x) = false.
Proof.
  rewrite ltb_spec, leb_spec. unfold SFltb, SFleb.
  rewrite (SFcompare_antisym (Prim2SF x) (Prim2SF y)).
  destruct (SFcompare (Prim2SF x) (Prim2SF y)) as [[]|]; cbn; congruence.
Qed.

Lemma leb_ltb_false x y : (x <=? y) = true -> (y <? x) = false.
Proof.
  rewrite ltb_spec, leb_spec. unfold SFltb, SFleb.
  rewrite (SFcompare_antisym (Prim2SF x) (Prim2SF y)).
  destruct (SFcompare (Prim2SF x) (Prim2SF y)) as [[]|]; cbn; congruence.
Qed.

Lemma eqb_leb_sym x y : (x =? y) = true -> (y <=? x) = true.
Proof.
  rewrite eqb_spec, leb_spec. unfold SFeqb, SFleb.
  rewrite (SFcompare_antisym (Prim2SF x) (Prim2SF y)).
  destruct (SFcompare (Prim2SF x) (Prim2SF y)) as [[]|]; cbn; congruence.
Qed.

Lemma eqb_not_nan x y : (x =? y) = true -> is_nan x = false.
Proof.
  rewrite eqb_spec, is_nan_spec. unfold SFeqb.
  destruct (Prim2SF x); cbn; try reflexivity. discriminate.
Qed.

Lemma ltb_not_nan x y : (x <? y) = true -> is_nan x = false.
Proof.
  rewrite ltb_spec, is_nan_spec. unfold SFltb.
  destruct (Prim2SF x); cbn; try reflexivity. discriminate.
Qed.

Lemma leb_not_nan_r x y : (x <=? y) = true -> is_nan y = false.
Proof.
  rewrite leb_spec, is_nan_spec. unfold SFleb.
  destruct (Prim2SF y); cbn; try reflexivity.
  destruct (Prim2SF x); discriminate.
Qed.

(** For a finite [y] and a number [x], [y - x <= 0] is [y <= x] and
    [y - x > 0] is [y > x]: a difference never rounds to zero. *)
Lemma sub_le_zero y x : is_finite y = true -> is_nan x = false ->
  (y - x <=? 0) = (y <=? x).
Proof.
  rewrite is_finite_spec, is_nan_spec. intros Fy Nx.
  rewrite !leb_spec, sub_spec. change (Prim2SF 0) with (S754_zero false).
  unfold SFleb. rewrite SFsub_compare; auto using Prim2SF_valid.
Qed.

Lemma sub_gt_zero y x : is_finite y = true -> is_nan x = false ->
  (0 <? y - x) = (x <? y).
Proof.
  rewrite is_finite_spec, is_nan_spec. intros Fy Nx.
  rewrite !ltb_spec, sub_spec. change (Prim2SF 0) with (S754_zero false).
  unfold SFltb.
  rewrite (SFcompare_antisym (SF64sub (Prim2SF y) (Prim2SF x)) (S754_zero false)).
  rewrite (SFcompare_antisym (Prim2SF y) (Prim2SF x)).
  rewrite SFsub_compare; auto using Prim2SF_valid.
Qed.

Lemma fin_nonneg_spec x : is_finite x = true -> (0 <=? x) = true ->
  fin_nonneg (Prim2SF x) = true.
Proof.
  rewrite is_finite_spec, leb_spec. change (Prim2SF 0) with (S754_zero false).
  destruct (Prim2SF x) as [s|[]| |[] m e]; cbn; congruence.
Qed.

(** Multiplying a finite number by zero gives a zero. *)
Lemma mul_zero_r x : is_finite x = true -> (x * 0 =? 0) = true.
Proof.
  rewrite is_finite_spec. intros F. apply eqb_zero_SF. rewrite mul_spec.
  change (Prim2SF 0) with (S754_zero false).
  destruct (Prim2SF x) as [s|[]| |s m e]; try discriminate; cbn; eauto.
Qed.

Lemma Math_round_zero x : (x =? 0) = true -> (JS.Math_round x =? 0) = true.
Proof.
  intros H. apply eqb_zero_SF in H. destruct H as [s H]. apply eqb_zero_SF.
  exists s. rewrite Math_round_spec, H. reflexivity.
Qed.

(** [Math.round (x * a) <= Math.round (x * b)] for [0 <= a <= b] and a
    finite [x >= 0]. *)
Theorem round_mul_mono x a b :
  is_finite x = true -> (0 <=? x) = true ->
  is_finite a = true -> (0 <=? a) = true ->
  is_finite b = true -> (a <=? b) = true ->
  (JS.Math_round (x * a) <=? JS.Math_round (x * b)) = true.
Proof.
  intros Fx Px Fa Pa Fb Hab.
  assert (Pb : (0 <=? b) = true).
  { revert Pa Hab. rewrite !leb_spec. change (Prim2SF 0) with (S754_zero false).
    rewrite is_finite_spec in Fa, Fb.
    destruct (Prim2SF a) as [sa|[]| |[] ma ea], (Prim2SF b) as [sb|[]| |[] mb eb];
      cbn; congruence. }
  pose proof (fin_nonneg_spec x Fx Px) as Nx.
  pose proof (fin_nonneg_spec a Fa Pa) as Na.
  pose proof (fin_nonneg_spec b Fb Pb) as Nb.
  rewrite leb_spec in Hab. rewrite leb_spec, !Math_round_spec.
  apply SFround_mono; try apply Prim2SF_valid.
  - rewrite mul_spec. apply SFmul_nonneg; auto using Prim2SF_valid.
  - rewrite mul_spec. apply SFmul_nonneg; auto using Prim2SF_valid.
  - rewrite !mul_spec. apply SFmul_mono; auto using Prim2SF_valid.
Qed.

Lemma mul_comm x y : x * y = y * x.
Proof. apply Prim2SF_inj. rewrite !mul_spec. apply SFmul_comm. Qed.

Lemma div_ten_fin x : is_finite x = true -> (0 <=? x) = true ->
  is_finite (x / 10) = true /\ (0 <=? x / 10) = true.
Proof.
  intros Fx Px. pose proof (fin_nonneg_spec x Fx Px) as Nx.
  pose proof (SFdiv_ten_fin (Prim2SF x) (Prim2SF_valid x) Nx) as H.
  rewrite is_finite_spec, leb_spec, div_spec.
  change (Prim2SF 0) with (S754_zero false). change (Prim2SF 10) with SF64ten.
  destruct (SF64div (Prim2SF x) SF64ten) as [s|[]| |[] m e]; try discriminate H;
    split; reflexivity.
Qed.

Lemma finite_number x : is_finite x = true -> is_nan x = false.
Proof. rewrite is_finite_spec, is_nan_spec. apply finite_not_nan. Qed.

Lemma sub_number a b :
  is_nan a = false -> is_nan b = false -> is_finite a || is_finite b = true ->
  is_nan (a - b) = false.
Proof.
  rewrite !is_nan_spec, !is_finite_spec, sub_spec. apply SFsub_not_nan.
Qed.

Lemma div_number a b :
  is_nan a = false -> is_nan b = false -> (b =? 0) = false ->
  is_finite a || is_finite b = true ->
  is_nan (a / b) = false.
Proof.
  rewrite !is_nan_spec, !is_finite_spec, div_spec, eqb_spec.
  change (Prim2SF 0) with (S754_zero false). apply SFdiv_not_nan.
Qed.

Lemma mul_number a b :
  is_finite a = true -> is_finite b = true -> is_nan (a * b) = false.
Proof.
  rewrite !is_finite_spec, is_nan_spec, mul_spec. intros Fa Fb.
  destruct (SFmul_not_nan _ _ Fa Fb) as [H|[s H]].
  - apply finite_not_nan, H.
  - rewrite H. reflexivity.
Qed.

Lemma Math_round_number x : is_nan x = false -> is_nan (JS.Math_round x) = false.
Proof. rewrite !is_nan_spec, Math_round_spec. apply SFround_not_nan. Qed.

Lemma div_ten_finite x : is_finite x = true -> is_finite (x / 10) = true.
Proof.
  rewrite !is_finite_spec, div_spec. change (Prim2SF 10) with SF64ten.
  apply SFdiv_ten_finite, Prim2SF_valid.
Qed.

Lemma ltb_or_leb x y : is_nan x = false -> is_nan y = false ->
  (x <? y) = true \/ (y <=? x) = true.
Proof.
  rewrite !is_nan_spec, ltb_spec, leb_spec. unfold SFltb, SFleb.
  rewrite (SFcompare_antisym (Prim2SF x) (Prim2SF y)).
  destruct (Prim2SF x) as [sx|sx| |sx mx ex], (Prim2SF y) as [sy|sy| |sy my ey];
    try discriminate; intros _ _;
    destruct (SFcompare _ _) as [[]|] eqn:E; cbn; auto; discriminate E.
Qed.

End B64.

(** * The claims *)

Local Open Scope float_scope.

(** ** The embedding at known values *)

(** [Math.round] on ties, on negative numbers and next to one half. *)
Example Math_round_values :
  map JS.Math_round
      [0.5; -0.5; 1.5; -1.5; 2.5; -2.5; 0.49999999999999994; -0.2; 2.4;
       4503599627370495.5; infinity; -0] =
  [1; -0; 2; -1; 3; -2; 0; -0; 2; 4503599627370496; infinity; -0].
Proof. vm_compute. reflexivity. Qed.

(** The chart of the form's initial state. *)
Example scenario_chart :
  option_map (map (fun p => (p.(Chart.day), p.(Chart.pv), p.(Chart.ev), p.(Chart.ac))))
             (chartData 12 scenario) =
  Some [(0, 0, 0, 0); (6, 10000, 8500, 9500); (12, 20000, 17000, 19000);
        (18, 30000, 25500, 28500); (24, 40000, 34000, 38000);
        (30, 50000, 42500, 47500); (36, 60000, 51000, 57000);
        (42, 70000, 59500, 66500); (48, 80000, 68000, 76000);
        (54, 90000, 76500, 85500); (60, 100000, 85000, 95000)].
Proof. vm_compute. reflexivity. Qed.

(** Eleven tests of the loop condition are not enough: the loop needs the
    twelfth, which fails, to stop. *)
Example chartData_fuel_11 : chartData 11 scenario = None.
Proof. vm_compute. reflexivity. Qed.

(** The financial preset of the form: [spi = 1], [cpi = 0.833...],
    [eac = 300000]. *)
Example financial_preset :
  let r := results {| pv := 150000; ev := 150000; ac := 180000; bac := 250000;
                      totalDurationDays := 180; elapsedDays := 100 |} in
  r.(spi) = 1 /\ starts_with r.(cpi) 0.833 0.834 = true /\ r.(eac) = 300000.
Proof. vm_compute. repeat split. Qed.

(** Metrics of the order of [1e308]: both [bac - ev] and [bac - ac] overflow,
    and their quotient [tcpi] is NaN. *)
Example tcpi_overflow :
  is_nan (results {| pv := 1; ev := -1e308; ac := -1e308; bac := 1e308;
                     totalDurationDays := 180; elapsedDays := 100 |}).(tcpi) = true.
Proof. vm_compute. reflexivity. Qed.

(** The ratio is rounded before the product is: at step 7 a planned value
    of 45 gives [round(45 * 0.7) = round(31.499999999999996) = 31], where
    [45 * 7 / 10] is [31.5] and rounds to 32. *)
Example ratio_first :
  option_map (fun points => map Chart.pv (firstn 1 (skipn 7 points)))
             (chartData 12 {| pv := 45; ev := 0; ac := 0; bac := 100;
                              totalDurationDays := 10; elapsedDays := 5 |}) = Some [31] /\
  JS.Math_round (45 * 7 / 10) = 32.
Proof. vm_compute. split; reflexivity. Qed.

(** What an infinity among the metrics does: with [ac = bac = infinity],
    [bac - ac] is NaN and so is [tcpi]; with [pv = infinity], point 0 has
    [pv = round(infinity * 0)], which is NaN. *)
Example infinite_metrics :
  is_nan (results {| pv := 1; ev := 0; ac := infinity; bac := infinity;
                     totalDurationDays := 180; elapsedDays := 60 |}).(tcpi) = true /\
  option_map (fun points => map (fun p => is_nan p.(Chart.pv)) (firstn 1 points))
             (chartData 12 {| pv := infinity; ev := 0; ac := 0; bac := 100;
                              totalDurationDays := 10; elapsedDays := 5 |}) = Some [true].
Proof. vm_compute. split; reflexivity. Qed.

(** ** The metrics evaluator *)

Lemma real_metrics_fields (m : EVMMetrics) :
  real_metrics m = true ->
  is_finite m.(pv) = true /\ is_finite m.(ev) = true /\ is_finite m.(ac) = true /\
  is_finite m.(bac) = true /\ is_finite m.(totalDurationDays) = true /\
  is_finite m.(elapsedDays) = true.
Proof.
  unfold real_metrics. rewrite !andb_true_iff. tauto.
Qed.

(** C6. For every input, [etc] is [eac - ac] and [vac] is [bac - eac], with
    the [eac] of the same result record. *)
Theorem etc_vac_derived (m : EVMMetrics) :
  (results m).(etc) = (results m).(eac) - m.(ac) /\
  (results m).(vac) = m.(bac) - (results m).(eac).
Proof. split; reflexivity. Qed.

(** C3. For every input with [pv = 0], [spi] is [1] and
    [estimatedCompletionDays] is [totalDurationDays]. *)
Theorem zero_planned_value (m : EVMMetrics) :
  JS.strict_eq m.(pv) 0 = true ->
  (results m).(spi) = 1 /\
  (results m).(estimatedCompletionDays) = m.(totalDurationDays).
Proof.
  intros H. unfold results. cbn [spi estimatedCompletionDays]. rewrite H.
  change (JS.strict_eq 1 0) with false. cbv iota.
  split; [reflexivity|apply B64.div_one].
Qed.

(** With [pv = 0] in the spec's scenario. *)
Lemma zero_planned_value_witness :
  (results {| pv := 0; ev := 85000; ac := 95000; bac := 250000;
              totalDurationDays := 180; elapsedDays := 60 |}).(spi) = 1 /\
  (results {| pv := 0; ev := 85000; ac := 95000; bac := 250000;
              totalDurationDays := 180; elapsedDays := 60 |}).(estimatedCompletionDays) = 180.
Proof. apply (zero_planned_value (Build_EVMMetrics 0 85000 95000 250000 180 60)). reflexivity. Defined.

(** C4. For every input with [ac = 0], [cpi] is [1] and [eac] is [bac]. *)
Theorem zero_actual_cost (m : EVMMetrics) :
  JS.strict_eq m.(ac) 0 = true ->
  (results m).(cpi) = 1 /\ (results m).(eac) = m.(bac).
Proof.
  intros H. unfold results. cbn [cpi eac]. rewrite H.
  change (JS.strict_eq 1 0) with false. cbv iota.
  split; [reflexivity|apply B64.div_one].
Qed.

(** With [ac = 0] in the spec's scenario. *)
Lemma zero_actual_cost_witness :
  (results {| pv := 100000; ev := 85000; ac := 0; bac := 250000;
              totalDurationDays := 180; elapsedDays := 60 |}).(cpi) = 1 /\
  (results {| pv := 100000; ev := 85000; ac := 0; bac := 250000;
              totalDurationDays := 180; elapsedDays := 60 |}).(eac) = 250000.
Proof. apply (zero_actual_cost (Build_EVMMetrics 100000 85000 0 250000 180 60)). reflexivity. Defined.

(** C1. [tcpi] is [(bac - ev) / (bac - ac)] when [bac - ac > 0]; when
    [bac - ac <= 0] it is [9.99] if [bac - ev > 0] and [0] otherwise. In
    particular, the metrics being real numbers: [ac = bac] and [ev < bac]
    give [9.99], [ac = bac] and [ev >= bac] give [0], and one of
    [bac - ac > 0] and [bac - ac <= 0] holds. *)
Theorem tcpi_policy (m : EVMMetrics) :
  let workRemaining := m.(bac) - m.(ev) in
  let fundsRemaining := m.(bac) - m.(ac) in
  (JS.gt fundsRemaining 0 = true ->
     (results m).(tcpi) = workRemaining / fundsRemaining) /\
  (JS.le fundsRemaining 0 = true ->
     (results m).(tcpi) = if JS.gt workRemaining 0 then 9.99 else 0) /\
  (real_metrics m = true -> JS.strict_eq m.(ac) m.(bac) = true ->
     JS.lt m.(ev) m.(bac) = true -> (results m).(tcpi) = 9.99) /\
  (real_metrics m = true -> JS.strict_eq m.(ac) m.(bac) = true ->
     JS.ge m.(ev) m.(bac) = true -> (results m).(tcpi) = 0) /\
  (real_metrics m = true ->
     JS.gt fundsRemaining 0 = true \/ JS.le fundsRemaining 0 = true).
Proof.
  intros workRemaining fundsRemaining.
  assert (G : JS.le fundsRemaining 0 = true ->
     (results m).(tcpi) = if JS.gt workRemaining 0 then 9.99 else 0).
  { intros H. unfold results. cbn [tcpi]. fold fundsRemaining. fold workRemaining.
    rewrite H. reflexivity. }
  assert (F : is_finite m.(bac) = true -> JS.strict_eq m.(ac) m.(bac) = true ->
     JS.le fundsRemaining 0 = true).
  { intros Fb E. unfold JS.le, fundsRemaining.
    rewrite B64.sub_le_zero by eauto using B64.eqb_not_nan.
    apply B64.eqb_leb_sym. exact E. }
  repeat split.
  - intros H. unfold results. cbn [tcpi]. fold fundsRemaining. fold workRemaining.
    unfold JS.le. rewrite (B64.ltb_leb_false _ _ H). reflexivity.
  - exact G.
  - intros R E L. destruct (real_metrics_fields m R) as (_ & _ & _ & Fb & _).
    rewrite (G (F Fb E)). unfold JS.gt, workRemaining.
    rewrite B64.sub_gt_zero by eauto using B64.ltb_not_nan.
    unfold JS.lt in L. rewrite L. reflexivity.
  - intros R E L. destruct (real_metrics_fields m R) as (_ & _ & _ & Fb & _).
    rewrite (G (F Fb E)). unfold JS.gt, workRemaining.
    unfold JS.ge in L.
    rewrite B64.sub_gt_zero by eauto using B64.leb_not_nan_r.
    rewrite (B64.leb_ltb_false _ _ L). reflexivity.
  - intros R. destruct (real_metrics_fields m R) as (_ & _ & Fa & Fb & _).
    unfold JS.gt, JS.le, fundsRemaining.
    rewrite B64.sub_gt_zero, B64.sub_le_zero by auto using B64.finite_number.
    apply B64.ltb_or_leb; auto using B64.finite_number.
Qed.

(** The spec's scenario with [ac = bac = 250000] and [ev = 200000]. *)
Lemma tcpi_policy_witness :
  (results {| pv := 100000; ev := 200000; ac := 250000; bac := 250000;
              totalDurationDays := 180; elapsedDays := 60 |}).(tcpi) = 9.99.
Proof.
  apply (tcpi_policy (Build_EVMMetrics 100000 200000 250000 250000 180 60));
    reflexivity.
Defined.

(** C5 fails as claimed: on [underflow] the computed [cpi] is zero (and
    [eac] is [bac]) although [ev] is not zero. *)
Lemma cpi_zero_by_underflow : ~ cpi_zero_exactly underflow.
Proof.
  unfold cpi_zero_exactly. intros [H _].
  assert (E : JS.strict_eq (results underflow).(cpi) 0 = true) by reflexivity.
  destruct (H E) as [H0 _]. vm_compute in H0. discriminate H0.
Qed.

(** C5, amended. Whenever the computed [cpi] is zero, [eac] is [bac], and
    whenever the computed [spi] is zero, [estimatedCompletionDays] is
    [totalDurationDays]. The computed [cpi] is zero exactly when [ac <> 0]
    and the quotient [ev / ac] is zero, and likewise [spi] with [pv]: so it
    is whenever [ev = 0] and the denominator is a number other than zero,
    and so it is on some inputs with [ev <> 0], by underflow. *)
Theorem zero_index_override (m : EVMMetrics) :
  (JS.strict_eq (results m).(cpi) 0 = true -> (results m).(eac) = m.(bac)) /\
  (JS.strict_eq (results m).(spi) 0 = true ->
     (results m).(estimatedCompletionDays) = m.(totalDurationDays)) /\
  (JS.strict_eq (results m).(cpi) 0 = true <->
     JS.strict_eq m.(ac) 0 = false /\ JS.strict_eq (m.(ev) / m.(ac)) 0 = true) /\
  (JS.strict_eq (results m).(spi) 0 = true <->
     JS.strict_eq m.(pv) 0 = false /\ JS.strict_eq (m.(ev) / m.(pv)) 0 = true) /\
  (JS.strict_eq m.(ev) 0 = true ->
     forall y, JS.strict_eq y 0 = false -> is_nan y = false ->
               JS.strict_eq (m.(ev) / y) 0 = true) /\
  (exists m', JS.strict_eq (results m').(cpi) 0 = true /\
              JS.strict_eq m'.(ev) 0 = false /\
              is_finite m'.(ev) = true /\ is_finite m'.(ac) = true).
Proof.
  assert (Z : forall x y, JS.strict_eq x 0 = true -> JS.strict_eq y 0 = false ->
                is_nan y = false -> JS.strict_eq (x / y) 0 = true).
  { unfold JS.strict_eq. intros x y Hx Hy Ny.
    apply B64.eqb_zero_SF in Hx. destruct Hx as [s Hx]. apply B64.eqb_zero_SF.
    rewrite B64.is_nan_spec in Ny. rewrite eqb_spec in Hy.
    change (Prim2SF 0) with (S754_zero false) in Hy.
    rewrite div_spec, Hx.
    destruct (Prim2SF y) as [sy|sy| |sy my ey]; try discriminate; cbn; eauto. }
  unfold results. cbn [cpi spi eac estimatedCompletionDays].
  split; [intros H; rewrite H; reflexivity|].
  split; [intros H; rewrite H; reflexivity|].
  split; [|split; [|split]].
  - destruct (JS.strict_eq m.(ac) 0).
    + split; [discriminate|intros [H _]; discriminate H].
    + split; [intros H; split; [reflexivity|exact H]|intros [_ H]; exact H].
  - destruct (JS.strict_eq m.(pv) 0).
    + split; [discriminate|intros [H _]; discriminate H].
    + split; [intros H; split; [reflexivity|exact H]|intros [_ H]; exact H].
  - intros Hx y Hy Ny. apply Z; assumption.
  - exists underflow. repeat split.
Qed.

(** With [ev = 0] in the spec's scenario. *)
Lemma zero_index_override_witness :
  (results {| pv := 100000; ev := 0; ac := 95000; bac := 250000;
              totalDurationDays := 180; elapsedDays := 60 |}).(eac) = 250000.
Proof.
  apply (zero_index_override (Build_EVMMetrics 100000 0 95000 250000 180 60)).
  reflexivity.
Defined.

(** C2 fails as claimed: [eac] is [250000 / (85000 / 95000)], above
    [279411], and not [279069.77]. *)
Lemma scenario_not_as_claimed : ~ scenario_as_claimed (results scenario).
Proof.
  unfold scenario_as_claimed. intros (_ & _ & _ & _ & H & _).
  vm_compute in H. discriminate H.
Qed.

(** C2, amended. On the spec's scenario [sv = -15000], [spi] is about
    [0.85], [cv = -10000], [cpi] is [0.894...], [eac] is about [279411.76],
    [vac] is about [-29411.76], [tcpi] is [1.06...],
    [estimatedCompletionDays] is about [211.76] and [scheduleVarianceDays]
    is about [31.76]. *)
Theorem scenario_results :
  let r := results scenario in
  r.(sv) = -15000 /\
  approx r.(spi) 0.85 0.005 = true /\
  r.(cv) = -10000 /\
  starts_with r.(cpi) 0.894 0.895 = true /\
  approx r.(eac) 279411.76 0.005 = true /\
  approx r.(vac) (-29411.76) 0.005 = true /\
  starts_with r.(tcpi) 1.06 1.07 = true /\
  approx r.(estimatedCompletionDays) 211.76 0.005 = true /\
  approx r.(scheduleVarianceDays) 31.76 0.005 = true.
Proof. vm_compute. repeat split. Qed.

(** C9, first half. Two inputs that agree on [pv], [ev], [ac], [bac] and
    [totalDurationDays] have the same results, whatever their
    [elapsedDays]. *)
Lemma results_ignore_elapsedDays (m1 m2 : EVMMetrics) :
  m1.(pv) = m2.(pv) -> m1.(ev) = m2.(ev) -> m1.(ac) = m2.(ac) ->
  m1.(bac) = m2.(bac) -> m1.(totalDurationDays) = m2.(totalDurationDays) ->
  results m1 = results m2.
Proof.
  destruct m1, m2. cbn. intros -> -> -> -> ->. reflexivity.
Qed.

Lemma chartLoop_ignores (m1 m2 : EVMMetrics) (stepDays : float) :
  m1.(pv) = m2.(pv) -> m1.(ev) = m2.(ev) -> m1.(ac) = m2.(ac) ->
  forall fuel i points,
    chartLoop m1 stepDays fuel i points = chartLoop m2 stepDays fuel i points.
Proof.
  intros Hp He Ha. induction fuel as [|fuel IH]; intros i points; [reflexivity|].
  cbn [chartLoop]. destruct (JS.le i steps); [|reflexivity].
  rewrite IH. unfold chartPoint. rewrite Hp, He, Ha. reflexivity.
Qed.

(** C9. The results do not depend on [elapsedDays], and the chart series
    does not depend on [bac] or [totalDurationDays]. *)
Theorem independence (m1 m2 : EVMMetrics) :
  m1.(pv) = m2.(pv) -> m1.(ev) = m2.(ev) -> m1.(ac) = m2.(ac) ->
  (m1.(bac) = m2.(bac) -> m1.(totalDurationDays) = m2.(totalDurationDays) ->
     results m1 = results m2) /\
  (m1.(elapsedDays) = m2.(elapsedDays) ->
     forall fuel, chartData fuel m1 = chartData fuel m2).
Proof.
  intros Hp He Ha. split.
  - intros. apply results_ignore_elapsedDays; assumption.
  - intros Hd fuel. unfold chartData. rewrite Hd. apply chartLoop_ignores; assumption.
Qed.

(** The spec's scenario against other elapsed days, and against another budget
    and duration. *)
Lemma independence_witness :
  results scenario =
  results {| pv := 100000; ev := 85000; ac := 95000; bac := 250000;
             totalDurationDays := 180; elapsedDays := 7 |} /\
  chartData 12 scenario =
  chartData 12 {| pv := 100000; ev := 85000; ac := 95000; bac := 1;
                  totalDurationDays := 2; elapsedDays := 60 |}.
Proof.
  split.
  - apply (independence scenario (Build_EVMMetrics 100000 85000 95000 250000 180 7));
      reflexivity.
  - apply (independence scenario (Build_EVMMetrics 100000 85000 95000 1 2 60));
      reflexivity.
Defined.

(** ** The series interpolator *)

(** With fuel for twelve tests of the loop condition, the loop stops by
    itself, after pushing one point per counter value. *)
Lemma chartData_unroll (fuel : nat) (m : EVMMetrics) :
  (12 <= fuel)%nat ->
  chartData fuel m = Some (map (chartPoint m (m.(elapsedDays) / steps)) stepIndex).
Proof.
  intros H. do 12 (destruct fuel as [|fuel]; [lia|]). clear H.
  unfold chartData.
  lazy beta iota zeta delta
    [chartLoop JS.le steps app map stepIndex PrimFloat.leb PrimFloat.add].
  reflexivity.
Qed.

Lemma chartData_checked_unroll (fuel : nat) (m : EVMMetrics) :
  (12 <= fuel)%nat ->
  chartData_checked fuel m =
  Some (map (chartPoint m (m.(elapsedDays) / steps)) stepIndex).
Proof.
  intros H. do 12 (destruct fuel as [|fuel]; [lia|]). clear H.
  lazy beta iota zeta delta
    [chartData_checked chartLoop_checked chartPoint_checked checked_div bind
     chartPoint JS.le JS.strict_eq steps app map stepIndex
     PrimFloat.leb PrimFloat.eqb PrimFloat.add].
  reflexivity.
Qed.

Lemma guarded_div (g : bool) (d x y : float) :
  (g = false -> JS.strict_eq y 0 = false) ->
  (if g then Some d else checked_div x y) = Some (if g then d else x / y).
Proof.
  intros H. destruct g; [reflexivity|]. unfold checked_div. rewrite H; reflexivity.
Qed.

Lemma results_checked_ok (m : EVMMetrics) : results_checked m = Some (results m).
Proof.
  unfold results_checked.
  rewrite guarded_div by (intros H; exact H). cbn [bind].
  rewrite guarded_div by (intros H; exact H). cbn [bind].
  rewrite guarded_div by (intros H; exact H). cbn [bind].
  rewrite guarded_div by (apply B64.leb_false_eqb). cbn [bind].
  rewrite guarded_div by (intros H; exact H). cbn [bind].
  reflexivity.
Qed.

(** The fields of [results], each from the ones before it. *)
Lemma results_fields (m : EVMMetrics) :
  let r := results m in
  r.(sv) = m.(ev) - m.(pv) /\
  r.(spi) = (if JS.strict_eq m.(pv) 0 then 1 else m.(ev) / m.(pv)) /\
  r.(cv) = m.(ev) - m.(ac) /\
  r.(cpi) = (if JS.strict_eq m.(ac) 0 then 1 else m.(ev) / m.(ac)) /\
  r.(eac) = (if JS.strict_eq r.(cpi) 0 then m.(bac) else m.(bac) / r.(cpi)) /\
  r.(etc) = r.(eac) - m.(ac) /\
  r.(vac) = m.(bac) - r.(eac) /\
  r.(tcpi) = (if JS.le (m.(bac) - m.(ac)) 0
              then (if JS.gt (m.(bac) - m.(ev)) 0 then 9.99 else 0)
              else (m.(bac) - m.(ev)) / (m.(bac) - m.(ac))) /\
  r.(estimatedCompletionDays) =
    (if JS.strict_eq r.(spi) 0 then m.(totalDurationDays)
     else m.(totalDurationDays) / r.(spi)) /\
  r.(scheduleVarianceDays) = r.(estimatedCompletionDays) - m.(totalDurationDays).
Proof. cbv zeta. repeat split. Qed.

(** On real (finite) metrics every field of the results is a number, [tcpi]
    as long as [bac - ev] and [bac - ac] do not both overflow. *)
Lemma results_numbers (m : EVMMetrics) :
  is_finite m.(pv) = true -> is_finite m.(ev) = true -> is_finite m.(ac) = true ->
  is_finite m.(bac) = true -> is_finite m.(totalDurationDays) = true ->
  let r := results m in
  is_nan r.(sv) = false /\ is_nan r.(spi) = false /\ is_nan r.(cv) = false /\
  is_nan r.(cpi) = false /\ is_nan r.(eac) = false /\ is_nan r.(etc) = false /\
  is_nan r.(vac) = false /\ is_nan r.(estimatedCompletionDays) = false /\
  is_nan r.(scheduleVarianceDays) = false /\
  (is_finite (m.(bac) - m.(ev)) || is_finite (m.(bac) - m.(ac)) = true ->
   is_nan r.(tcpi) = false).
Proof.
  intros Fp Fe Fa Fb Fd r.
  destruct (results_fields m) as (E1 & E2 & E3 & E4 & E5 & E6 & E7 & E8 & E9 & E10).
  fold r in E1, E2, E3, E4, E5, E6, E7, E8, E9, E10.
  pose proof (B64.finite_number _ Fp) as Np. pose proof (B64.finite_number _ Fe) as Ne.
  pose proof (B64.finite_number _ Fa) as Na. pose proof (B64.finite_number _ Fb) as Nb.
  pose proof (B64.finite_number _ Fd) as Nd.
  assert (N1 : is_nan r.(sv) = false)
    by (rewrite E1; apply B64.sub_number; auto; rewrite Fe; reflexivity).
  assert (N2 : is_nan r.(spi) = false).
  { rewrite E2. unfold JS.strict_eq. destruct (m.(pv) =? 0) eqn:G; [reflexivity|].
    apply B64.div_number; auto. rewrite Fe; reflexivity. }
  assert (N3 : is_nan r.(cv) = false)
    by (rewrite E3; apply B64.sub_number; auto; rewrite Fe; reflexivity).
  assert (N4 : is_nan r.(cpi) = false).
  { rewrite E4. unfold JS.strict_eq. destruct (m.(ac) =? 0) eqn:G; [reflexivity|].
    apply B64.div_number; auto. rewrite Fe; reflexivity. }
  assert (N5 : is_nan r.(eac) = false).
  { rewrite E5. unfold JS.strict_eq. destruct (r.(cpi) =? 0) eqn:G; [exact Nb|].
    apply B64.div_number; auto. rewrite Fb; reflexivity. }
  assert (N6 : is_nan r.(etc) = false)
    by (rewrite E6; apply B64.sub_number; auto; rewrite Fa; apply orb_true_r).
  assert (N7 : is_nan r.(vac) = false)
    by (rewrite E7; apply B64.sub_number; auto; rewrite Fb; reflexivity).
  assert (N8 : is_nan r.(estimatedCompletionDays) = false).
  { rewrite E9. unfold JS.strict_eq. destruct (r.(spi) =? 0) eqn:G; [exact Nd|].
    apply B64.div_number; auto. rewrite Fd; reflexivity. }
  assert (N9 : is_nan r.(scheduleVarianceDays) = false)
    by (rewrite E10; apply B64.sub_number; auto; rewrite Fd; apply orb_true_r).
  repeat split; try assumption.
  intros F. rewrite E8. unfold JS.le.
  destruct (m.(bac) - m.(ac) <=? 0) eqn:G; [destruct (JS.gt _ _); reflexivity|].
  apply B64.div_number; auto.
  - apply B64.sub_number; auto. rewrite Fb; reflexivity.
  - apply B64.sub_number; auto. rewrite Fb; reflexivity.
  - apply B64.leb_false_eqb, G.
Qed.

(** On real (finite) metrics every field of every point is a number. *)
Lemma chartPoint_numbers (m : EVMMetrics) (i : float) :
  is_finite m.(elapsedDays) = true -> is_finite m.(pv) = true ->
  is_finite m.(ev) = true -> is_finite m.(ac) = true ->
  In i stepIndex ->
  let p := chartPoint m (m.(elapsedDays) / steps) i in
  is_nan p.(Chart.day) = false /\ is_nan p.(Chart.pv) = false /\
  is_nan p.(Chart.ev) = false /\ is_nan p.(Chart.ac) = false.
Proof.
  intros Fd Fp Fe Fa Hi.
  assert (Fi : is_finite i = true /\ is_finite (i / steps) = true).
  { cbn in Hi. repeat (destruct Hi as [<- | Hi]; [split; reflexivity|]). contradiction. }
  destruct Fi as [Fi Fr]. pose proof (B64.div_ten_finite _ Fd) as Fs.
  cbn [chartPoint Chart.day Chart.pv Chart.ev Chart.ac].
  repeat split; apply B64.Math_round_number, B64.mul_number; assumption.
Qed.

(** C8. Both computations are total and no division of theirs has a zero
    divisor: run with a division that fails on zero, [results] still
    returns its record, and the loop of [chartData] stops by itself with
    its eleven points. On real metrics the fields returned are numbers,
    [tcpi] as long as [bac - ev] and [bac - ac] do not both overflow. *)
Theorem total_and_guarded (fuel : nat) (m : EVMMetrics) :
  (12 <= fuel)%nat ->
  results_checked m = Some (results m) /\
  (exists points,
     chartData fuel m = Some points /\
     chartData_checked fuel m = Some points /\
     length points = 11%nat /\
     (real_metrics m = true ->
      Forall (fun p => is_nan p.(Chart.day) = false /\ is_nan p.(Chart.pv) = false /\
                       is_nan p.(Chart.ev) = false /\ is_nan p.(Chart.ac) = false)
             points)) /\
  (real_metrics m = true ->
   let r := results m in
   is_nan r.(sv) = false /\ is_nan r.(spi) = false /\ is_nan r.(cv) = false /\
   is_nan r.(cpi) = false /\ is_nan r.(eac) = false /\ is_nan r.(etc) = false /\
   is_nan r.(vac) = false /\ is_nan r.(estimatedCompletionDays) = false /\
   is_nan r.(scheduleVarianceDays) = false /\
   (is_finite (m.(bac) - m.(ev)) || is_finite (m.(bac) - m.(ac)) = true ->
    is_nan r.(tcpi) = false)).
Proof.
  intros H. split; [apply results_checked_ok|]. split.
  2:{ intros R. destruct (real_metrics_fields m R) as (Fp & Fe & Fa & Fb & Fd & _).
      apply results_numbers; assumption. }
  eexists. split; [apply chartData_unroll; exact H|].
  split; [apply chartData_checked_unroll; exact H|]. split; [reflexivity|].
  intros R. destruct (real_metrics_fields m R) as (Fp & Fe & Fa & _ & _ & Fd).
  apply Forall_map, Forall_forall.
  intros i Hi. apply chartPoint_numbers; assumption.
Qed.

(** On inconsistent, negative and zero values. *)
Lemma total_and_guarded_witness :
  results_checked inconsistent = Some (results inconsistent) /\
  exists points,
    chartData 12 inconsistent = Some points /\
    chartData_checked 12 inconsistent = Some points /\
    length points = 11%nat.
Proof.
  destruct (total_and_guarded 12 inconsistent (le_n 12)) as (R & (points & C & K & L & _) & _).
  split; [exact R|]. exists points. repeat split; assumption.
Defined.

(** C7. The series has exactly 11 points, the point of step [i] being
    [{day: round(i * stepDays), pv: round(pv * ratio), ev: round(ev * ratio),
    ac: round(ac * ratio)}] with [stepDays = elapsedDays / 10] and
    [ratio = i / 10]. Point 0 has [pv = ev = ac = 0] (the metrics being real
    numbers), point 10 has [round(pv)], [round(ev)] and [round(ac)], and with
    [elapsedDays = 0] every day is [0]. *)
Theorem series_shape (fuel : nat) (m : EVMMetrics) :
  (12 <= fuel)%nat ->
  exists points,
    chartData fuel m = Some points /\
    length points = 11%nat /\
    points =
      map (fun i =>
             {| Chart.day := JS.Math_round (i * (m.(elapsedDays) / 10));
                Chart.pv := JS.Math_round (m.(pv) * (i / 10));
                Chart.ev := JS.Math_round (m.(ev) * (i / 10));
                Chart.ac := JS.Math_round (m.(ac) * (i / 10)) |}) stepIndex /\
    (real_metrics m = true ->
     forall p0, nth_error points 0 = Some p0 ->
       JS.strict_eq p0.(Chart.pv) 0 = true /\
       JS.strict_eq p0.(Chart.ev) 0 = true /\
       JS.strict_eq p0.(Chart.ac) 0 = true) /\
    (forall p10, nth_error points 10 = Some p10 ->
       p10.(Chart.pv) = JS.Math_round m.(pv) /\
       p10.(Chart.ev) = JS.Math_round m.(ev) /\
       p10.(Chart.ac) = JS.Math_round m.(ac)) /\
    (JS.strict_eq m.(elapsedDays) 0 = true ->
       Forall (fun p => JS.strict_eq p.(Chart.day) 0 = true) points).
Proof.
  intros H. eexists. split; [apply chartData_unroll; exact H|].
  split; [reflexivity|]. split; [reflexivity|].
  assert (Z : forall x, is_finite x = true ->
                JS.strict_eq (JS.Math_round (x * (0 / steps))) 0 = true).
  { intros x Fx. change (0 / steps) with 0.
    apply B64.Math_round_zero, B64.mul_zero_r, Fx. }
  split; [|split].
  - intros R p0 E. destruct (real_metrics_fields m R) as (Fp & Fe & Fa & _).
    cbn in E. injection E as <-. cbn [chartPoint Chart.pv Chart.ev Chart.ac].
    repeat split; apply Z; assumption.
  - intros p10 E. cbn in E. injection E as <-. cbn [chartPoint Chart.pv Chart.ev Chart.ac].
    change (10 / steps) with 1. rewrite !B64.mul_one. repeat split.
  - intros E. apply B64.eqb_zero_inv in E.
    repeat (apply Forall_cons || apply Forall_nil);
      cbn [chartPoint Chart.day]; destruct E as [-> | ->]; reflexivity.
Qed.

(** On the spec's scenario. *)
Lemma series_shape_witness :
  exists points,
    chartData 12 scenario = Some points /\
    length points = 11%nat /\
    points =
      map (fun i =>
             {| Chart.day := JS.Math_round (i * (scenario.(elapsedDays) / 10));
                Chart.pv := JS.Math_round (scenario.(pv) * (i / 10));
                Chart.ev := JS.Math_round (scenario.(ev) * (i / 10));
                Chart.ac := JS.Math_round (scenario.(ac) * (i / 10)) |}) stepIndex /\
    (real_metrics scenario = true ->
     forall p0, nth_error points 0 = Some p0 ->
       JS.strict_eq p0.(Chart.pv) 0 = true /\
       JS.strict_eq p0.(Chart.ev) 0 = true /\
       JS.strict_eq p0.(Chart.ac) 0 = true) /\
    (forall p10, nth_error points 10 = Some p10 ->
       p10.(Chart.pv) = JS.Math_round scenario.(pv) /\
       p10.(Chart.ev) = JS.Math_round scenario.(ev) /\
       p10.(Chart.ac) = JS.Math_round scenario.(ac)) /\
    (JS.strict_eq scenario.(elapsedDays) 0 = true ->
       Forall (fun p => JS.strict_eq p.(Chart.day) 0 = true) points).
Proof. apply (series_shape 12 scenario). lia. Defined.

Lemma stepIndex_sorted (i j : nat) (a b : float) :
  (i < j)%nat -> nth_error stepIndex i = Some a -> nth_error stepIndex j = Some b ->
  ordered_steps a b = true.
Proof.
  intros Hij Ha Hb.
  do 12 (try destruct i as [|i]); do 12 (try destruct j as [|j]);
    cbn in Ha, Hb; try discriminate; try lia;
    injection Ha as <-; injection Hb as <-; vm_compute; reflexivity.
Qed.

(** C10. For real metrics with [elapsedDays >= 0], [pv >= 0], [ev >= 0] and
    [ac >= 0], the series is nondecreasing in each field: for steps
    [i < j], the day, pv, ev and ac of point [i] are at most those of
    point [j]. *)
Theorem series_monotone (fuel : nat) (m : EVMMetrics) :
  (12 <= fuel)%nat -> real_metrics m = true ->
  JS.ge m.(elapsedDays) 0 = true -> JS.ge m.(pv) 0 = true ->
  JS.ge m.(ev) 0 = true -> JS.ge m.(ac) 0 = true ->
  exists points,
    chartData fuel m = Some points /\
    length points = 11%nat /\
    forall i j pi pj,
      (i < j)%nat -> nth_error points i = Some pi -> nth_error points j = Some pj ->
      JS.le pi.(Chart.day) pj.(Chart.day) = true /\
      JS.le pi.(Chart.pv) pj.(Chart.pv) = true /\
      JS.le pi.(Chart.ev) pj.(Chart.ev) = true /\
      JS.le pi.(Chart.ac) pj.(Chart.ac) = true.
Proof.
  unfold JS.ge, JS.le. intros H R Pd Pp Pe Pa.
  destruct (real_metrics_fields m R) as (Fp & Fe & Fa & _ & _ & Fd).
  eexists. split; [apply chartData_unroll; exact H|]. split; [reflexivity|].
  intros i j pi pj Hij Hi Hj.
  rewrite nth_error_map in Hi, Hj.
  destruct (nth_error stepIndex i) as [a|] eqn:Ea; [|discriminate].
  destruct (nth_error stepIndex j) as [b|] eqn:Eb; [|discriminate].
  injection Hi as <-. injection Hj as <-.
  pose proof (stepIndex_sorted i j a b Hij Ea Eb) as S.
  unfold ordered_steps in S. rewrite !andb_true_iff in S.
  destruct S as (((((((S1 & S2) & S3) & S4) & S5) & S6) & S7) & S8).
  destruct (B64.div_ten_fin _ Fd Pd) as [Fs Ps].
  cbn [chartPoint Chart.day Chart.pv Chart.ev Chart.ac].
  repeat split.
  - rewrite (B64.mul_comm a), (B64.mul_comm b).
    apply B64.round_mul_mono; assumption.
  - apply B64.round_mul_mono; assumption.
  - apply B64.round_mul_mono; assumption.
  - apply B64.round_mul_mono; assumption.
Qed.

(** On the spec's scenario. *)
Lemma series_monotone_witness :
  exists points,
    chartData 12 scenario = Some points /\
    length points = 11%nat /\
    forall i j pi pj,
      (i < j)%nat -> nth_error points i = Some pi -> nth_error points j = Some pj ->
      JS.le pi.(Chart.day) pj.(Chart.day) = true /\
      JS.le pi.(Chart.pv) pj.(Chart.pv) = true /\
      JS.le pi.(Chart.ev) pj.(Chart.ev) = true /\
      JS.le pi.(Chart.ac) pj.(Chart.ac) = true.
Proof. apply (series_monotone 12 scenario); reflexivity. Defined.

